(** * Earning rules of the points calculator: [src/utils/calculators/rules.js]

    A shallow embedding of the rule classes ([DistanceRule],
    [IntraCountryRule], [FareClassRule], [GeographicalRule]) and of
    [parseEarningRates], followed by the properties proved about them.

    Conventions of the embedding.
    - A JavaScript string is a [string] whose characters are the code units
      below 256 (Latin-1); [toLowerCase], [trim] and the regular expression
      class for white space are written out on that range.
    - A JavaScript number that holds a distance, a point or a credit count is
      an integer, [Z]; [NaN] as a result of [parseInt] is [None].  A double
      holds every integer of at most 2^53 in absolute value exactly and
      rounds beyond; the rounding is not modelled, and a property that names
      the value of a number assumes [safeInteger] of it.
    - An object used as a dictionary is a [gmap string _] of its own keys
      when the code only tests and reads keys, and an association list in
      insertion order when the code enumerates its keys.  The names that
      every object inherits from [Object.prototype] are listed in
      [AnyCategory], which models the operator [in] on them; the methods of
      the rule modules are the code for every other key, and a property
      about a missing category assumes that the category is not one of
      those names.  The names of cities and countries are looked up on own
      keys.  The label [__proto__] given to [parseEarningRates] sets
      the prototype of the result and is not modelled.
    - [undefined] and [null] are [None]; an exception is [Throw] in the
      [result] monad. *)

From Stdlib Require Import ZArith Ascii String List.
From stdpp Require Import gmap strings list pretty.

Local Open Scope Z_scope.

(** ** The language's own functions *)

Module Js.

Inductive JsError : Type :=
| Error (message : string)
| TypeError.

Inductive result (A : Type) : Type :=
| Ok (a : A)
| Throw (e : JsError).
Global Arguments Ok {A} a.
Global Arguments Throw {A} e.

Definition bind {A B : Type} (m : result A) (k : A -> result B) : result B :=
  match m with
  | Ok a => k a
  | Throw e => Throw e
  end.

(** Reading a property of [undefined] or [null], and [k in undefined]. *)
Definition defined {A : Type} (o : option A) : result A :=
  match o with
  | Some a => Ok a
  | None => Throw TypeError
  end.

Definition code (c : ascii) : Z := Z.of_nat (nat_of_ascii c).

Definition chr (z : Z) : ascii := ascii_of_nat (Z.to_nat z).

(** [String.prototype.toLowerCase] on one code unit below 256: the letters
    A-Z, and the Latin-1 capitals U+00C0-U+00DE without the sign U+00D7. *)
Definition lower_char (c : ascii) : ascii :=
  let n := code c in
  if ((65 <=? n) && (n <=? 90)) || ((192 <=? n) && (n <=? 222) && negb (n =? 215))
  then chr (n + 32)
  else c.

Fixpoint toLowerCase (s : string) : string :=
  match s with
  | EmptyString => EmptyString
  | String c s' => String (lower_char c) (toLowerCase s')
  end.

(** White space and line terminators below 256: what [\s] matches and
    what [trim] and [parseInt] skip. *)
Definition isWhiteSpace (c : ascii) : bool :=
  let n := code c in
  ((9 <=? n) && (n <=? 13)) || (n =? 32) || (n =? 160).

Fixpoint trimStart (s : string) : string :=
  match s with
  | EmptyString => EmptyString
  | String c s' => if isWhiteSpace c then trimStart s' else s
  end.

Fixpoint trimEnd (s : string) : string :=
  match s with
  | EmptyString => EmptyString
  | String c s' =>
      match trimEnd s' with
      | EmptyString => if isWhiteSpace c then EmptyString else String c EmptyString
      | t => String c t
      end
  end.

Definition trim (s : string) : string := trimEnd (trimStart s).

(** [s.replace(/c/gm, '')] for a single character [c]. *)
Fixpoint removeAll (c : ascii) (s : string) : string :=
  match s with
  | EmptyString => EmptyString
  | String d s' => if bool_decide (d = c) then removeAll c s' else String d (removeAll c s')
  end.

(** [s.replace(/\s+/gm, ' ')]: every maximal run of white space becomes one
    space.  [in_run] says that the previous character was white space. *)
Fixpoint collapseFrom (in_run : bool) (s : string) : string :=
  match s with
  | EmptyString => EmptyString
  | String c s' =>
      if isWhiteSpace c
      then (if in_run then collapseFrom true s' else String " " (collapseFrom true s'))
      else String c (collapseFrom false s')
  end.

Definition collapseWhiteSpace (s : string) : string := collapseFrom false s.

(** [s.split(sep)] for a single character separator: never an empty list,
    the empty string gives one empty token. *)
Fixpoint split (sep : ascii) (s : string) : list string :=
  match s with
  | EmptyString => [EmptyString]
  | String c s' =>
      if bool_decide (c = sep) then EmptyString :: split sep s'
      else match split sep s' with
           | t :: ts => String c t :: ts
           | [] => [String c EmptyString]
           end
  end.

(** The value of a character as a digit: 0-9, then a-z and A-Z as 10-35. *)
Definition digitValue (c : ascii) : option Z :=
  let n := code c in
  if (48 <=? n) && (n <=? 57) then Some (n - 48)
  else if (97 <=? n) && (n <=? 122) then Some (n - 87)
  else if (65 <=? n) && (n <=? 90) then Some (n - 55)
  else None.

(** The longest prefix of digits of the radix, read as a number; [acc] is
    the value read so far, [None] before the first digit. *)
Fixpoint parseDigits (radix : Z) (acc : option Z) (s : string) : option Z :=
  match s with
  | EmptyString => acc
  | String c s' =>
      match digitValue c with
      | Some d =>
          if d <? radix then parseDigits radix (Some (default 0 acc * radix + d)) s'
          else acc
      | None => acc
      end
  end.

(** [parseInt(s)] with no radix argument, step by step as the language
    defines it: leading white space is skipped; a minus sign makes the
    result negative and a sign is removed; a prefix [0x] or [0X] is removed
    and selects radix 16, otherwise the radix is 10; the longest prefix of
    digits of the radix is the value, and no digit at all gives [NaN]. *)
Definition hasSign (s : string) : bool :=
  match s with
  | String c _ => bool_decide (c = "+"%char \/ c = "-"%char)
  | EmptyString => false
  end.

Definition isNegative (s : string) : bool :=
  match s with
  | String c _ => bool_decide (c = "-"%char)
  | EmptyString => false
  end.

Definition hasHexPrefix (s : string) : bool :=
  match s with
  | String c (String x _) => bool_decide (c = "0"%char /\ (x = "x"%char \/ x = "X"%char))
  | _ => false
  end.

Fixpoint dropChars (n : nat) (s : string) : string :=
  match n, s with
  | S n', String _ r => dropChars n' r
  | _, _ => s
  end.

Definition parseInt (s : string) : option Z :=
  let s1 := trimStart s in
  let sign := if isNegative s1 then -1 else 1 in
  let s2 := if hasSign s1 then dropChars 1 s1 else s1 in
  let radix := if hasHexPrefix s2 then 16 else 10 in
  let s3 := if hasHexPrefix s2 then dropChars 2 s2 else s2 in
  match parseDigits radix None s3 with
  | Some n => Some (sign * n)
  | None => None
  end.

(** [parseInt(x)] for an array element that may be missing: [undefined] is
    first converted to the string it prints as. *)
Definition parseIntOf (x : option string) : option Z :=
  parseInt (default "undefined" x).

(** [n || 0] for a number: [NaN] and zero are falsy. *)
Definition orZero (n : option Z) : Z := default 0 n.

(** [s || d] for a string that may be missing: [undefined] and the empty
    string are falsy. *)
Definition orString (s : option string) (d : string) : string :=
  match s with
  | Some (String c t) => String c t
  | _ => d
  end.

End Js.

Import Js.

(** The sequencing of statements that may throw is written [x ← m; k]. *)
#[global] Instance result_bind : MBind result := fun A B k m => Js.bind m k.
#[global] Instance result_ret : MRet result := @Js.Ok.

(** ** Data model *)

Module Airport.
Record t : Type := mk { iata : string; city : string; country : string }.
End Airport.

Module Segment.
Record t : Type := mk { fromAirport : Airport.t; toAirport : Airport.t }.
End Segment.

(** Modelled from the spec: the class [QantasEarnings] of
    [models/qantasEarnings], a pair of a points and a credits count built by
    its constructor from these two arguments. *)
Module QantasEarnings.
Record t : Type := new { qantasPoints : Z; statusCredits : Z }.
End QantasEarnings.

(** The earnings of one band or of one destination, by fare-earn category. *)
Abbreviation Earnings := (gmap string QantasEarnings.t).

(** What the module imports from the rest of the application.

    Modelled from the spec: [calcDistance(fromAirport, toAirport) -> number],
    in miles.  Numeric assumption of the embedding: the distance is a whole
    number of miles, as are the bounds of the bands; a distance with a
    fraction is outside the model. *)
Class Imports : Type := {
  (** [calcDistance] of [utils/airports]. *)
  calcDistance : Airport.t -> Airport.t -> Z;
  (** [isInRegion] of [calculators/regions]. *)
  isInRegion : string -> string -> bool;
  (** [REGION_DISPLAY] of [models/constants]. *)
  REGION_DISPLAY : gmap string string
}.

Module CalculationResult.
Record t : Type := mk {
  rule : string;
  ruleUrl : string;
  fareEarnCategory : string;
  notes : string;
  qantasPoints : Z;
  statusCredits : Z
}.
End CalculationResult.

(** ** class Rule *)

Module Rule.

Record t : Type := new { name : string; ruleUrl : string }.

Definition applies (this : t) (segment : Segment.t) (fareEarnCategory : string)
  : result bool :=
  Ok false.

Definition buildCalculationReturn (this : t) (fareEarnCategory notes : string)
    (qantasPoints statusCredits : Z) : CalculationResult.t :=
  {| CalculationResult.rule := name this;
     CalculationResult.ruleUrl := ruleUrl this;
     CalculationResult.fareEarnCategory := fareEarnCategory;
     CalculationResult.notes := notes;
     CalculationResult.qantasPoints := qantasPoints;
     CalculationResult.statusCredits := statusCredits |}.

Definition calculate (this : t) (segment : Segment.t) (fareEarnCategory : string)
  : result CalculationResult.t :=
  Ok (buildCalculationReturn this EmptyString EmptyString 0 0).

End Rule.

(** ** class DistanceRule *)

Module DistanceBand.
Record t : Type := mk {
  minDistance : Z;
  maxDistance : option Z;
  earnings : Earnings
}.
End DistanceBand.

Module DistanceRule.

Record t : Type := new {
  super : Rule.t;
  distanceBands : list DistanceBand.t
}.

(** The callback given to [find]. *)
Definition bandTest (distance : Z) (distanceBand : DistanceBand.t) : bool :=
  (DistanceBand.minDistance distanceBand <? distance)
  && match DistanceBand.maxDistance distanceBand with
     | None => true
     | Some m => distance <=? m
     end.

Definition _getDistanceBand (this : t) (distance : Z) : option DistanceBand.t :=
  List.find (bandTest distance) (distanceBands this).

Definition applies `{imports : Imports} (this : t) (segment : Segment.t) (fareEarnCategory : string)
  : result bool :=
  let distance := calcDistance (Segment.fromAirport segment) (Segment.toAirport segment) in
  match _getDistanceBand this distance with
  | None => Ok false
  | Some distanceBand =>
      Ok (bool_decide (is_Some (DistanceBand.earnings distanceBand !! fareEarnCategory)))
  end.

Definition noBandMessage (this : t) : string :=
  "No applicable distance band to calculate with for rule: " +:+ Rule.name (super this).

Definition notesForDistance (distanceBand : DistanceBand.t) : string :=
  match DistanceBand.maxDistance distanceBand with
  | Some m =>
      "using band " +:+ pretty (DistanceBand.minDistance distanceBand) +:+ " - " +:+ pretty m
  | None =>
      "using band " +:+ pretty (DistanceBand.minDistance distanceBand) +:+ " and over"
  end.

Definition calculate `{imports : Imports} (this : t) (segment : Segment.t) (fareEarnCategory : string)
  : result CalculationResult.t :=
  let distance := calcDistance (Segment.fromAirport segment) (Segment.toAirport segment) in
  match _getDistanceBand this distance with
  | None => Throw (Error (noBandMessage this))
  | Some distanceBand =>
      let notes :=
        "Distance calculated to " +:+ pretty distance +:+ " miles, "
        +:+ notesForDistance distanceBand in
      e ← defined (DistanceBand.earnings distanceBand !! fareEarnCategory);
      Ok (Rule.buildCalculationReturn (super this) fareEarnCategory notes
            (QantasEarnings.qantasPoints e) (QantasEarnings.statusCredits e))
  end.

End DistanceRule.

(** ** class IntraCountryRule *)

Module IntraCountryRule.

Record t : Type := mk {
  super : Rule.t;
  country : string;
  distanceRule : DistanceRule.t
}.

(** The constructor: the inner rule gets the same name and URL. *)
Definition new (name ruleUrl country : string) (distanceBands : list DistanceBand.t) : t :=
  {| super := Rule.new name ruleUrl;
     country := country;
     distanceRule := DistanceRule.new (Rule.new name ruleUrl) distanceBands |}.

Definition applies `{imports : Imports} (this : t) (segment : Segment.t) (fareEarnCategory : string)
  : result bool :=
  if bool_decide (Airport.country (Segment.fromAirport segment) ≠ country this)
     || bool_decide (Airport.country (Segment.toAirport segment) ≠ country this)
  then Ok false
  else DistanceRule.applies (distanceRule this) segment fareEarnCategory.

Definition calculate `{imports : Imports} (this : t) (segment : Segment.t) (fareEarnCategory : string)
  : result CalculationResult.t :=
  DistanceRule.calculate (distanceRule this) segment fareEarnCategory.

End IntraCountryRule.

(** ** class FareClassRule *)

Module FareClassEarning.
Record t : Type := mk {
  qantasPoints : Z;
  statusCredits : Z;
  calculationNotes : string
}.
End FareClassEarning.

Module FareClassRule.

Record t : Type := new {
  super : Rule.t;
  fareClassEarnings : gmap string FareClassEarning.t
}.

Definition applies (this : t) (segment : Segment.t) (fareEarnCategory : string)
  : result bool :=
  Ok (bool_decide (is_Some (fareClassEarnings this !! fareEarnCategory))).

Definition calculate (this : t) (segment : Segment.t) (fareEarnCategory : string)
  : result CalculationResult.t :=
  e ← defined (fareClassEarnings this !! fareEarnCategory);
  Ok (Rule.buildCalculationReturn (super this) fareEarnCategory
        (FareClassEarning.calculationNotes e)
        (FareClassEarning.qantasPoints e) (FareClassEarning.statusCredits e)).

End FareClassRule.

(** ** class GeographicalRule *)

(** An object whose keys the code enumerates: the own properties in
    insertion order ([Object.keys]; the keys here are names of places, none
    of them an array index). *)
Module JsObject.

Definition t (V : Type) : Type := list (string * V).

(** [obj[key]] *)
Fixpoint get {V : Type} (obj : t V) (key : string) : option V :=
  match obj with
  | [] => None
  | (k, v) :: rest => if bool_decide (k = key) then Some v else get rest key
  end.

(** [key in obj] *)
Definition has {V : Type} (obj : t V) (key : string) : bool :=
  bool_decide (is_Some (get obj key)).

(** [Object.keys(obj)] *)
Definition keys {V : Type} (obj : t V) : list string := map fst obj.

End JsObject.

Module Location.
Record t : Type := mk { type : string; value : string }.
End Location.

(** [ruleConfig.origin]: sets of names; a set of regions is read in insertion
    order by [values()]. *)
Module Origin.
Record t : Type := mk {
  city : option (gset string);
  country : option (gset string);
  region : option (list string)
}.
End Origin.

(** [ruleConfig.destination]: tables from a name to the earnings by category. *)
Module Destination.
Record t : Type := mk {
  city : option (JsObject.t Earnings);
  country : option (JsObject.t Earnings);
  region : option (JsObject.t Earnings)
}.

(** [destination[type]] *)
Definition get (d : t) (type : string) : option (JsObject.t Earnings) :=
  if bool_decide (type = "city") then city d
  else if bool_decide (type = "country") then country d
  else if bool_decide (type = "region") then region d
  else None.
End Destination.

Module RuleConfig.
Record t : Type := mk { origin : Origin.t; destination : Destination.t }.
End RuleConfig.

Module GeographicalRule.

Record t : Type := new {
  super : Rule.t;
  ruleConfig : RuleConfig.t
}.

(** The loop [for (let region of regions) if (isInRegion(iata, region)) return ...]. *)
Definition firstRegion `{imports : Imports} (iata : string) (regions : list string) : option Location.t :=
  match List.find (isInRegion iata) regions with
  | Some region => Some (Location.mk "region" region)
  | None => None
  end.

(** Each of the three blocks returns as soon as it has a match: [x ∪ y] is
    [x] when [x] is a value, and [y] otherwise. *)
Definition _getOrigin `{imports : Imports} (this : t) (airport : Airport.t) : option Location.t :=
  let origin := RuleConfig.origin (ruleConfig this) in
  match Origin.city origin with
  | Some cities =>
      if bool_decide (toLowerCase (Airport.city airport) ∈ cities)
      then Some (Location.mk "city" (toLowerCase (Airport.city airport)))
      else None
  | None => None
  end
  ∪
  match Origin.country origin with
  | Some countries =>
      if bool_decide (toLowerCase (Airport.country airport) ∈ countries)
      then Some (Location.mk "country" (toLowerCase (Airport.country airport)))
      else None
  | None => None
  end
  ∪
  match Origin.region origin with
  | Some regions => firstRegion (toLowerCase (Airport.iata airport)) regions
  | None => None
  end.

Definition _getDestination `{imports : Imports} (this : t) (airport : Airport.t) : option Location.t :=
  let destination := RuleConfig.destination (ruleConfig this) in
  match Destination.city destination with
  | Some cities =>
      if JsObject.has cities (toLowerCase (Airport.city airport))
      then Some (Location.mk "city" (toLowerCase (Airport.city airport)))
      else None
  | None => None
  end
  ∪
  match Destination.country destination with
  | Some countries =>
      if JsObject.has countries (toLowerCase (Airport.country airport))
      then Some (Location.mk "country" (toLowerCase (Airport.country airport)))
      else None
  | None => None
  end
  ∪
  match Destination.region destination with
  | Some regions => firstRegion (toLowerCase (Airport.iata airport)) (JsObject.keys regions)
  | None => None
  end.

Definition _getOriginAndDestination `{imports : Imports} (this : t) (segment : Segment.t)
  : option Location.t * option Location.t :=
  let origin := _getOrigin this (Segment.fromAirport segment) in
  let destination := _getDestination this (Segment.toAirport segment) in
  if negb (bool_decide (is_Some origin)) || negb (bool_decide (is_Some destination))
  then (_getOrigin this (Segment.toAirport segment),
        _getDestination this (Segment.fromAirport segment))
  else (origin, destination).

Definition unknownTypeMessage (type : string) : string :=
  "Cannot create calcluation notes for unknown type " +:+ type.

Definition _buildCalculationNotesInner `{imports : Imports} (location : option Location.t)
  : result string :=
  l ← defined location;
  if bool_decide (Location.type l = "airport") then Ok (Location.value l +:+ " airport")
  else if bool_decide (Location.type l = "city") then Ok (Location.value l)
  else if bool_decide (Location.type l = "country") then Ok (Location.value l)
  else if bool_decide (Location.type l = "region")
       then Ok (orString (REGION_DISPLAY !! Location.value l) (Location.value l))
  else Throw (Error (unknownTypeMessage (Location.type l))).

Definition _buildCalculationNotes `{imports : Imports} (origin destination : option Location.t)
  : result string :=
  o ← _buildCalculationNotesInner origin;
  d ← _buildCalculationNotesInner destination;
  Ok (o +:+ " to " +:+ d).

(** [this.ruleConfig.destination[destination.type][destination.value]] *)
Definition destinationEarnings (this : t) (destination : option Location.t)
  : result (option Earnings) :=
  d ← defined destination;
  table ← defined (Destination.get (RuleConfig.destination (ruleConfig this)) (Location.type d));
  Ok (JsObject.get table (Location.value d)).

Definition applies `{imports : Imports} (this : t) (segment : Segment.t) (fareEarnCategory : string)
  : result bool :=
  let '(origin, destination) := _getOriginAndDestination this segment in
  if negb (bool_decide (is_Some origin)) || negb (bool_decide (is_Some destination))
  then Ok false
  else
    earnings ← destinationEarnings this destination;
    table ← defined earnings;
    Ok (bool_decide (is_Some (table !! fareEarnCategory))).

Definition calculate `{imports : Imports} (this : t) (segment : Segment.t) (fareEarnCategory : string)
  : result CalculationResult.t :=
  let '(origin, destination) := _getOriginAndDestination this segment in
  earnings ← destinationEarnings this destination;
  notes ← _buildCalculationNotes origin destination;
  table ← defined earnings;
  e ← defined (table !! fareEarnCategory);
  Ok (Rule.buildCalculationReturn (super this) fareEarnCategory notes
        (QantasEarnings.qantasPoints e) (QantasEarnings.statusCredits e)).

End GeographicalRule.

(** ** parseEarningRates *)

(** [retval[fareClass] = ...] for each label in turn: a later label that
    repeats an earlier one overwrites its entry. *)
Fixpoint fillRates (index : nat) (fareClasses : list string)
    (pointsPerFareclass creditsPerFareclass : list string) (retval : Earnings) : Earnings :=
  match fareClasses with
  | [] => retval
  | fareClass :: rest =>
      fillRates (S index) rest pointsPerFareclass creditsPerFareclass
        (<[fareClass := QantasEarnings.new
                          (orZero (parseIntOf (pointsPerFareclass !! index)))
                          (orZero (parseIntOf (creditsPerFareclass !! index)))]> retval)
  end.

Definition pointsTokens (qantasPointsString : string) : list string :=
  split " " (collapseWhiteSpace (removeAll "," (trim qantasPointsString))).

Definition creditsTokens (qantasCreditsString : string) : list string :=
  split " " (collapseWhiteSpace (trim qantasCreditsString)).

Definition parseEarningRates (qantasPointsString qantasCreditsString : string)
    (fareClasses : list string) : Earnings :=
  let pointsPerFareclass := pointsTokens qantasPointsString in
  let creditsPerFareclass := creditsTokens qantasCreditsString in
  fillRates 0 fareClasses pointsPerFareclass creditsPerFareclass ∅.

(** ** The rule variants behind the common interface *)

Inductive AnyRule : Type :=
| ADistanceRule (r : DistanceRule.t)
| AnIntraCountryRule (r : IntraCountryRule.t)
| AFareClassRule (r : FareClassRule.t)
| AGeographicalRule (r : GeographicalRule.t).

(** The call [rule.applies(segment, fareEarnCategory)] on a rule of any class. *)
Definition applies `{imports : Imports} (rule : AnyRule) (segment : Segment.t) (fareEarnCategory : string)
  : result bool :=
  match rule with
  | ADistanceRule r => DistanceRule.applies r segment fareEarnCategory
  | AnIntraCountryRule r => IntraCountryRule.applies r segment fareEarnCategory
  | AFareClassRule r => FareClassRule.applies r segment fareEarnCategory
  | AGeographicalRule r => GeographicalRule.applies r segment fareEarnCategory
  end.

(** * The vocabulary of the statements *)

(** ** Distance bands *)

(** The condition on a band in the words of the specification: the lower
    bound is exclusive, the upper bound inclusive, and a band without an
    upper bound is unbounded above. *)
Definition inBand (d : Z) (b : DistanceBand.t) : Prop :=
  DistanceBand.minDistance b < d
  /\ forall m : Z, DistanceBand.maxDistance b = Some m -> d <= m.

(** ** Segments and locations *)

Definition reverse (segment : Segment.t) : Segment.t :=
  Segment.mk (Segment.toAirport segment) (Segment.fromAirport segment).

(** The reading of a pair of airports as origin and destination succeeds. *)
Definition resolves `{imports : Imports} (this : GeographicalRule.t)
    (origin destination : Airport.t) : bool :=
  bool_decide (is_Some (GeographicalRule._getOrigin this origin))
  && bool_decide (is_Some (GeographicalRule._getDestination this destination)).

(** The airport is what the location names: its city or its country in lower
    case, or a region that contains its code. *)
Definition matches `{imports : Imports} (airport : Airport.t) (l : Location.t) : Prop :=
  (Location.type l = "city" /\ Location.value l = toLowerCase (Airport.city airport))
  \/ (Location.type l = "country" /\ Location.value l = toLowerCase (Airport.country airport))
  \/ (Location.type l = "region"
      /\ isInRegion (toLowerCase (Airport.iata airport)) (Location.value l) = true).

(** The rendering of a location in the notes, in the words of the
    specification: a city or a country is its bare name, a region is its
    display name, or its key when the table has no name for it (an empty
    name counts as none). *)
Inductive Renders `{imports : Imports} : Location.t -> string -> Prop :=
| Renders_city (v : string) : Renders (Location.mk "city" v) v
| Renders_country (v : string) : Renders (Location.mk "country" v) v
| Renders_region_display (v n : string) :
    REGION_DISPLAY !! v = Some n -> n <> EmptyString ->
    Renders (Location.mk "region" v) n
| Renders_region_key (v : string) :
    REGION_DISPLAY !! v = None \/ REGION_DISPLAY !! v = Some EmptyString ->
    Renders (Location.mk "region" v) v.

(** ** Earning rates *)

(** The record written for position [i]. *)
Definition rateAt (points credits : list string) (i : nat) : QantasEarnings.t :=
  QantasEarnings.new (orZero (parseIntOf (points !! i))) (orZero (parseIntOf (credits !! i))).

(** [i] is the last position of the label [l]. *)
Definition lastPosition (labels : list string) (i : nat) (l : string) : Prop :=
  labels !! i = Some l /\ forall j : nat, (i < j)%nat -> labels !! j <> Some l.

Definition isDecimalDigit (c : ascii) : bool := (48 <=? code c) && (code c <=? 57).

(** No character of the string is one of 0-9. *)
Fixpoint noDecimalDigit (s : string) : bool :=
  match s with
  | EmptyString => true
  | String c s' => negb (isDecimalDigit c) && noDecimalDigit s'
  end.

(** Every character of the string is one of 0-9. *)
Fixpoint allDecimalDigits (s : string) : bool :=
  match s with
  | EmptyString => true
  | String c s' => isDecimalDigit c && allDecimalDigits s'
  end.

(** The number that a string of decimal digits denotes, by position. *)
Fixpoint decimalValue (s : string) : Z :=
  match s with
  | EmptyString => 0
  | String c s' => (code c - 48) * 10 ^ Z.of_nat (String.length s') + decimalValue s'
  end.

(** ** Strings *)

Fixpoint forallChars (p : ascii -> bool) (s : string) : bool :=
  match s with
  | EmptyString => true
  | String c s' => p c && forallChars p s'
  end.

(** [tokens.join(sep)] *)
Fixpoint join (sep : ascii) (tokens : list string) : string :=
  match tokens with
  | [] => EmptyString
  | [t] => t
  | t :: rest => t +:+ String sep (join sep rest)
  end.

(** Two white space characters never follow one another after the collapse. *)
Fixpoint noSpaceRun (previous : bool) (s : string) : bool :=
  match s with
  | EmptyString => true
  | String c s' => negb (previous && isWhiteSpace c) && noSpaceRun (isWhiteSpace c) s'
  end.

(** No comma comes directly after white space and no white space directly
    after a comma, as for commas that separate thousands.  The two flags say
    whether the previous character was white space, or a comma. *)
Fixpoint commasInsideWords (previousSpace previousComma : bool) (s : string) : bool :=
  match s with
  | EmptyString => true
  | String c s' =>
      negb (previousSpace && bool_decide (c = ","%char))
      && negb (previousComma && isWhiteSpace c)
      && commasInsideWords (isWhiteSpace c) (bool_decide (c = ","%char)) s'
  end.

(** * Further vocabulary *)

(** A table of bands that starts at [lo], in which every band starts where
    the previous one ends, every bounded band is not empty, and the last band
    is the only one without an upper bound. *)
Fixpoint contiguousFrom (lo : Z) (bands : list DistanceBand.t) : bool :=
  match bands with
  | [] => false
  | b :: rest =>
      (DistanceBand.minDistance b =? lo)
      && match DistanceBand.maxDistance b with
         | None => bool_decide (rest = [])
         | Some m => (lo <? m) && contiguousFrom m rest
         end
  end.

(** Two airport records that differ at most in the case of their letters. *)
Definition sameLowerCase (a b : Airport.t) : Prop :=
  toLowerCase (Airport.iata a) = toLowerCase (Airport.iata b)
  /\ toLowerCase (Airport.city a) = toLowerCase (Airport.city b)
  /\ toLowerCase (Airport.country a) = toLowerCase (Airport.country b).

(** The pieces of a string between the characters that satisfy [p]. *)
Fixpoint splitWhere (p : ascii -> bool) (s : string) : list string :=
  match s with
  | EmptyString => [EmptyString]
  | String c s' =>
      if p c then EmptyString :: splitWhere p s'
      else match splitWhere p s' with
           | t :: ts => String c t :: ts
           | [] => [String c EmptyString]
           end
  end.

Definition nonEmpty (t : string) : bool :=
  match t with
  | EmptyString => false
  | String _ _ => true
  end.

(** The words of a string: its maximal runs of characters that are not
    white space, in order. *)
Definition words (s : string) : list string :=
  List.filter nonEmpty (splitWhere isWhiteSpace s).

(** The first piece as it is, then the pieces that are not empty. *)
Definition headThenWords (pieces : list string) : list string :=
  match pieces with
  | [] => []
  | h :: rest => h :: List.filter nonEmpty rest
  end.

(** ** Numbers *)

(** An integer up to 2^53 in magnitude: a number holds it exactly, and its
    printed form is its decimal notation.  Beyond that bound a number is the
    nearest double, which [Z] does not model. *)
Definition safeInteger (n : Z) : Prop := Z.abs n <= 2 ^ 53.

(** The string without the character [c], by filtering its characters. *)
Definition withoutChar (c : ascii) (s : string) : string :=
  String.string_of_list_ascii
    (List.filter (fun d => negb (Ascii.eqb d c)) (String.list_ascii_of_string s)).

(** * Categories named like a property of every object

    The methods above read [k in table] and [table[k]] on the own keys of
    the table.  The code does so for every category but the twelve names
    that an object written as a literal inherits from [Object.prototype]:
    for these [k in table] is true whatever the table holds.  This module
    gives [applies] with the test as the language defines it, for every
    string as a category.  The keys of the destination tables are names of
    places, and the test [place in table] is read on own keys here too: that
    is the code for a segment that is [wellFormed]. *)
Module AnyCategory.

(** [Object.getOwnPropertyNames(Object.prototype)] *)
Definition objectPrototypeKeys : list string :=
  ["constructor"; "__defineGetter__"; "__defineSetter__"; "hasOwnProperty";
   "__lookupGetter__"; "__lookupSetter__"; "isPrototypeOf"; "propertyIsEnumerable";
   "toString"; "valueOf"; "__proto__"; "toLocaleString"].

Definition inherited (key : string) : bool :=
  bool_decide (key ∈ objectPrototypeKeys).

(** [key in table] for a table written as an object literal. *)
Definition hasProperty {V : Type} (table : gmap string V) (key : string) : bool :=
  bool_decide (is_Some (table !! key)) || inherited key.

(** The names of the city and of the country of both airports, in lower
    case as the code looks them up, are not names that every object
    inherits. *)
Definition wellFormedAirport (airport : Airport.t) : Prop :=
  inherited (toLowerCase (Airport.city airport)) = false
  /\ inherited (toLowerCase (Airport.country airport)) = false.

Definition wellFormed (segment : Segment.t) : Prop :=
  wellFormedAirport (Segment.fromAirport segment)
  /\ wellFormedAirport (Segment.toAirport segment).

(** [DistanceRule.applies] *)
Definition distanceRuleApplies `{imports : Imports} (this : DistanceRule.t)
    (segment : Segment.t) (fareEarnCategory : string) : result bool :=
  let distance := calcDistance (Segment.fromAirport segment) (Segment.toAirport segment) in
  match DistanceRule._getDistanceBand this distance with
  | None => Ok false
  | Some distanceBand => Ok (hasProperty (DistanceBand.earnings distanceBand) fareEarnCategory)
  end.

(** [IntraCountryRule.applies] *)
Definition intraCountryRuleApplies `{imports : Imports} (this : IntraCountryRule.t)
    (segment : Segment.t) (fareEarnCategory : string) : result bool :=
  if bool_decide (Airport.country (Segment.fromAirport segment) ≠ IntraCountryRule.country this)
     || bool_decide (Airport.country (Segment.toAirport segment) ≠ IntraCountryRule.country this)
  then Ok false
  else distanceRuleApplies (IntraCountryRule.distanceRule this) segment fareEarnCategory.

(** [FareClassRule.applies] *)
Definition fareClassRuleApplies (this : FareClassRule.t)
    (segment : Segment.t) (fareEarnCategory : string) : result bool :=
  Ok (hasProperty (FareClassRule.fareClassEarnings this) fareEarnCategory).

(** [GeographicalRule.applies] *)
Definition geographicalRuleApplies `{imports : Imports} (this : GeographicalRule.t)
    (segment : Segment.t) (fareEarnCategory : string) : result bool :=
  let '(origin, destination) := GeographicalRule._getOriginAndDestination this segment in
  if negb (bool_decide (is_Some origin)) || negb (bool_decide (is_Some destination))
  then Ok false
  else
    earnings ← GeographicalRule.destinationEarnings this destination;
    table ← defined earnings;
    Ok (hasProperty table fareEarnCategory).

(** The call [rule.applies(segment, fareEarnCategory)] on a rule of any class. *)
Definition applies `{imports : Imports} (rule : AnyRule) (segment : Segment.t)
    (fareEarnCategory : string) : result bool :=
  match rule with
  | ADistanceRule r => distanceRuleApplies r segment fareEarnCategory
  | AnIntraCountryRule r => intraCountryRuleApplies r segment fareEarnCategory
  | AFareClassRule r => fareClassRuleApplies r segment fareEarnCategory
  | AGeographicalRule r => geographicalRuleApplies r segment fareEarnCategory
  end.

End AnyCategory.

(** * Sample data for the worked examples *)

Module Sample.

Definition SYD : Airport.t := Airport.mk "SYD" "Sydney" "AU".
Definition MEL : Airport.t := Airport.mk "MEL" "Melbourne" "AU".
Definition LAX : Airport.t := Airport.mk "LAX" "Los Angeles" "US".

Definition pair (a b : Airport.t) (x y : string) : bool :=
  bool_decide (Airport.iata a = x /\ Airport.iata b = y)
  || bool_decide (Airport.iata a = y /\ Airport.iata b = x).

(** Distances in miles between the sample airports, regions for them and a
    display name for one of the two regions. *)
Definition imports : Imports := {|
  calcDistance a b :=
    if pair a b "SYD" "MEL" then 439
    else if pair a b "SYD" "LAX" then 7488
    else if pair a b "MEL" "LAX" then 7921
    else 0;
  isInRegion code region :=
    bool_decide (region = "northamerica" /\ code = "lax")
    || bool_decide (region = "oceania" /\ (code = "syd" \/ code = "mel"));
  REGION_DISPLAY := {[ "northamerica" := "North America" ]}
|}.

Definition economy : Earnings :=
  {[ "economy" := QantasEarnings.new 800 10 ]}.

Definition business : Earnings :=
  {[ "business" := QantasEarnings.new 1400 40 ]}.

Definition bands : list DistanceBand.t :=
  [ DistanceBand.mk 0 (Some 600) economy;
    DistanceBand.mk 600 (Some 1200) business;
    DistanceBand.mk 1200 None economy ].

Definition distanceRule : DistanceRule.t :=
  DistanceRule.new (Rule.new "Domestic" "https://example.org/domestic") bands.

End Sample.

Module GeoSample.

(** Sydney and Los Angeles are both origins and both destinations, with
    different categories on offer. *)
Definition bothWays : GeographicalRule.t :=
  GeographicalRule.new (Rule.new "Trans-Pacific" "https://example.org/pacific")
    (RuleConfig.mk
       (Origin.mk (Some {[ "sydney"; "los angeles" ]}) None None)
       (Destination.mk
          (Some [("sydney", Sample.economy); ("los angeles", Sample.business)])
          None None)).

(** Australia to North America, by country and by region. *)
Definition oneWay : GeographicalRule.t :=
  GeographicalRule.new (Rule.new "Australia to North America" "https://example.org/na")
    (RuleConfig.mk
       (Origin.mk None (Some {[ "au" ]}) None)
       (Destination.mk None None (Some [("northamerica", Sample.economy)]))).

(** Oceania, a region without a display name, to the United States. *)
Definition fromRegion : GeographicalRule.t :=
  GeographicalRule.new (Rule.new "Oceania to US" "https://example.org/us")
    (RuleConfig.mk
       (Origin.mk None None (Some ["oceania"]))
       (Destination.mk None (Some [("us", Sample.business)]) None)).

End GeoSample.

Module GeoSampleMore.

(** Within Oceania: the region is both the origin and the destination. *)
Definition intraOceania : GeographicalRule.t :=
  GeographicalRule.new (Rule.new "Within Oceania" "https://example.org/oceania")
    (RuleConfig.mk
       (Origin.mk None None (Some ["oceania"]))
       (Destination.mk None None (Some [("oceania", Sample.economy)]))).

(** Sydney and Los Angeles are both origins and both destinations, and both
    destinations offer the same category. *)
Definition bothWaysShared : GeographicalRule.t :=
  GeographicalRule.new (Rule.new "Trans-Pacific" "https://example.org/pacific")
    (RuleConfig.mk
       (Origin.mk (Some {[ "sydney"; "los angeles" ]}) None None)
       (Destination.mk
          (Some [("sydney", Sample.economy); ("los angeles", Sample.economy)])
          None None)).

(** A table by fare class with one category. *)
Definition flat : FareClassRule.t :=
  FareClassRule.new (Rule.new "Flat" "https://example.org/flat")
    {[ "economy" := FareClassEarning.mk 500 5 "flat rate" ]}.

End GeoSampleMore.

(** * Properties *)

(** ** The language's own functions on samples *)

Example parseInt_samples :
  map parseInt ["1000"; "1,000"; "500x"; "abc"; ""; "0x1F"; "-7"; "+12"; "x1"; "undefined"; "007"]
  = [Some 1000; Some 1; Some 500; None; None; Some 31; Some (-7); Some 12; None; None; Some 7].
Proof. reflexivity. Qed.

Example split_samples :
  split " " "a b" = ["a"; "b"] /\ split " " "" = [""] /\ split " " " a  b " = [""; "a"; ""; "b"; ""]
  /\ collapseWhiteSpace "a  	 b c" = "a b c" /\ trim "  a b  " = "a b" /\ toLowerCase "SydNey" = "sydney".
Proof. repeat split; reflexivity. Qed.

(** ** Array.prototype.find *)

Section Find.
Context {A : Type} (p : A -> bool).

Lemma find_Some_first (l : list A) (x : A) :
  List.find p l = Some x <->
  exists i : nat, l !! i = Some x /\ p x = true
    /\ forall (j : nat) (y : A), (j < i)%nat -> l !! j = Some y -> p y = false.
Proof.
  induction l as [|a l IH]; simpl.
  - split; [discriminate|]. intros (i & Hi & _). by destruct i.
  - destruct (p a) eqn:Hpa.
    + split.
      * intros [= <-]. exists 0%nat. repeat split; auto. intros j y Hj. lia.
      * intros (i & Hi & Hx & Hfirst). destruct i as [|i]; [simpl in Hi; congruence|].
        specialize (Hfirst 0%nat a). simpl in Hfirst.
        rewrite Hfirst in Hpa; [discriminate | lia | reflexivity].
    + rewrite IH. split.
      * intros (i & Hi & Hx & Hfirst). exists (S i). repeat split; auto.
        intros [|j] y Hj Hy; simpl in Hy; [congruence|].
        apply (Hfirst j); [lia | assumption].
      * intros (i & Hi & Hx & Hfirst). destruct i as [|i]; [simpl in Hi; congruence|].
        exists i. repeat split; auto.
        intros j y Hj Hy. apply (Hfirst (S j)); [lia | assumption].
Qed.

Lemma find_None_all (l : list A) :
  List.find p l = None <-> forall x : A, x ∈ l -> p x = false.
Proof.
  induction l as [|a l IH]; simpl.
  - split; [|reflexivity]. intros _ x Hx. inversion Hx.
  - destruct (p a) eqn:Hpa.
    + split; [discriminate|]. intros Hall.
      rewrite Hall in Hpa; [discriminate | left].
    + rewrite IH. split.
      * intros Hall x Hx. inversion Hx; subst; auto.
      * intros Hall x Hx. apply Hall. by right.
Qed.
End Find.

(** ** DistanceRule *)

Lemma bandTest_inBand (d : Z) (b : DistanceBand.t) :
  DistanceRule.bandTest d b = true <-> inBand d b.
Proof.
  unfold DistanceRule.bandTest, inBand.
  rewrite andb_true_iff, Z.ltb_lt.
  destruct (DistanceBand.maxDistance b) as [m|].
  - rewrite Z.leb_le. split.
    + intros [Hlo Hhi]. split; [assumption|]. by intros ? [= <-].
    + intros [Hlo Hhi]. split; auto.
  - split; [|tauto]. intros [Hlo _]. split; [assumption | discriminate].
Qed.

Lemma bandTest_not_inBand (d : Z) (b : DistanceBand.t) :
  DistanceRule.bandTest d b = false <-> ~ inBand d b.
Proof.
  rewrite <- bandTest_inBand. by destruct (DistanceRule.bandTest d b).
Qed.

(** C1.  [_getDistanceBand d] is the first band, in the order of the list,
    whose lower bound is strictly below [d] and whose upper bound, if it has
    one, is at least [d]; it is [undefined] exactly when no band is such.  A
    band whose upper bound is [d] (and whose lower bound is below it) is
    returned unless an earlier band takes [d]; a band whose lower bound is
    [d] is never returned for [d]. *)
Theorem getDistanceBand_first_match (this : DistanceRule.t) (d : Z) :
  let bands := DistanceRule.distanceBands this in
  (forall b : DistanceBand.t,
      DistanceRule._getDistanceBand this d = Some b <->
      exists i : nat, bands !! i = Some b /\ inBand d b
        /\ forall (j : nat) (b' : DistanceBand.t),
             (j < i)%nat -> bands !! j = Some b' -> ~ inBand d b')
  /\ (DistanceRule._getDistanceBand this d = None <->
      forall b : DistanceBand.t, b ∈ bands -> ~ inBand d b)
  /\ (forall (i : nat) (b : DistanceBand.t),
        bands !! i = Some b ->
        DistanceBand.maxDistance b = Some d ->
        DistanceBand.minDistance b < d ->
        (forall (j : nat) (b' : DistanceBand.t),
            (j < i)%nat -> bands !! j = Some b' -> ~ inBand d b') ->
        DistanceRule._getDistanceBand this d = Some b)
  /\ (forall b : DistanceBand.t,
        DistanceBand.minDistance b = d ->
        DistanceRule._getDistanceBand this d <> Some b).
Proof.
  intros bands.
  assert (Hfirst : forall b : DistanceBand.t,
      DistanceRule._getDistanceBand this d = Some b <->
      exists i : nat, bands !! i = Some b /\ inBand d b
        /\ forall (j : nat) (b' : DistanceBand.t),
             (j < i)%nat -> bands !! j = Some b' -> ~ inBand d b').
  { intros b. unfold DistanceRule._getDistanceBand. rewrite find_Some_first.
    fold bands. split; intros (i & Hi & Hb & Hj); exists i.
    - rewrite bandTest_inBand in Hb. repeat split; try apply Hb; auto.
      intros j b' Hlt Hb'. apply bandTest_not_inBand. eauto.
    - rewrite <- bandTest_inBand in Hb. repeat split; auto.
      intros j b' Hlt Hb'. apply bandTest_not_inBand. eauto. }
  split; [exact Hfirst|]. split; [|split].
  - unfold DistanceRule._getDistanceBand. rewrite find_None_all. fold bands.
    split; intros Hall b Hb; apply bandTest_not_inBand; auto.
  - intros i b Hi Hmax Hmin Hearlier. apply Hfirst. exists i.
    repeat split; auto. intros m Hm. rewrite Hmax in Hm. injection Hm as ->. lia.
  - intros b Hmin Hfound. apply Hfirst in Hfound as (i & _ & [Hlo _] & _). lia.
Qed.

Lemma getDistanceBand_first_match_witness :
  DistanceRule._getDistanceBand Sample.distanceRule 600
  = Some (DistanceBand.mk 0 (Some 600) Sample.economy).
Proof.
  apply (proj1 (proj2 (proj2 (getDistanceBand_first_match Sample.distanceRule 600))) 0%nat).
  - reflexivity.
  - reflexivity.
  - simpl. lia.
  - intros j b' Hj. lia.
Defined.

Example getDistanceBand_samples :
  DistanceRule._getDistanceBand Sample.distanceRule 600 = Some (DistanceBand.mk 0 (Some 600) Sample.economy)
  /\ DistanceRule._getDistanceBand Sample.distanceRule 601 = Some (DistanceBand.mk 600 (Some 1200) Sample.business)
  /\ DistanceRule._getDistanceBand Sample.distanceRule 5000 = Some (DistanceBand.mk 1200 None Sample.economy)
  /\ DistanceRule._getDistanceBand Sample.distanceRule 0 = None.
Proof. repeat split; reflexivity. Qed.

Example distance_calculate_samples :
  DistanceRule.calculate (imports := Sample.imports) Sample.distanceRule
    (Segment.mk Sample.SYD Sample.MEL) "economy"
  = Ok (CalculationResult.mk "Domestic" "https://example.org/domestic" "economy"
          "Distance calculated to 439 miles, using band 0 - 600" 800 10)
  /\ DistanceRule.calculate (imports := Sample.imports) Sample.distanceRule
    (Segment.mk Sample.LAX Sample.SYD) "economy"
  = Ok (CalculationResult.mk "Domestic" "https://example.org/domestic" "economy"
          "Distance calculated to 7488 miles, using band 1200 and over" 800 10)
  /\ DistanceRule.calculate (imports := Sample.imports) Sample.distanceRule
    (Segment.mk Sample.SYD Sample.SYD) "economy"
  = Throw (Error "No applicable distance band to calculate with for rule: Domestic").
Proof. repeat split; vm_compute; reflexivity. Qed.

(** The three outcomes of [DistanceRule.applies] and when it says yes. *)
Lemma distance_applies_true `{imports : Imports} (this : DistanceRule.t)
    (segment : Segment.t) (fareEarnCategory : string) :
  DistanceRule.applies this segment fareEarnCategory = Ok true <->
  exists b : DistanceBand.t,
    DistanceRule._getDistanceBand this
      (calcDistance (Segment.fromAirport segment) (Segment.toAirport segment)) = Some b
    /\ is_Some (DistanceBand.earnings b !! fareEarnCategory).
Proof.
  unfold DistanceRule.applies.
  destruct (DistanceRule._getDistanceBand this _) as [b|].
  - split.
    + intros [= Hb]. apply bool_decide_eq_true in Hb. eauto.
    + intros (b' & [= <-] & Hb). f_equal. by apply bool_decide_eq_true.
  - split; [discriminate|]. intros (b & Hb & _). discriminate.
Qed.

(** ** IntraCountryRule *)

(** C4.  An intra-country rule says no as soon as one of the two airports is
    in another country than the configured one, whatever the distance; when
    both airports are in the configured country its answer is the answer of
    the inner distance rule, which is yes exactly when a band is found for
    the distance and holds the category. *)
Theorem intraCountry_applies_spec `{imports : Imports} (this : IntraCountryRule.t)
    (segment : Segment.t) (fareEarnCategory : string) :
  let C := IntraCountryRule.country this in
  let inner := IntraCountryRule.distanceRule this in
  (Airport.country (Segment.fromAirport segment) <> C
   \/ Airport.country (Segment.toAirport segment) <> C ->
   IntraCountryRule.applies this segment fareEarnCategory = Ok false)
  /\ (Airport.country (Segment.fromAirport segment) = C ->
      Airport.country (Segment.toAirport segment) = C ->
      IntraCountryRule.applies this segment fareEarnCategory
      = DistanceRule.applies inner segment fareEarnCategory)
  /\ (DistanceRule.applies inner segment fareEarnCategory = Ok true <->
      exists b : DistanceBand.t,
        DistanceRule._getDistanceBand inner
          (calcDistance (Segment.fromAirport segment) (Segment.toAirport segment)) = Some b
        /\ is_Some (DistanceBand.earnings b !! fareEarnCategory)).
Proof.
  intros C inner. unfold IntraCountryRule.applies. fold C. split; [|split].
  - intros [Hne|Hne].
    + by rewrite (bool_decide_eq_true_2 _ Hne).
    + rewrite (bool_decide_eq_true_2 _ Hne). by rewrite orb_true_r.
  - intros Hfrom Hto.
    rewrite !bool_decide_eq_false_2; [reflexivity | |]; intros Hne; by apply Hne.
  - apply distance_applies_true.
Qed.

Lemma intraCountry_applies_spec_witness :
  IntraCountryRule.applies (imports := Sample.imports)
    (IntraCountryRule.new "Intra Australia" "https://example.org/au" "AU" Sample.bands)
    (Segment.mk Sample.SYD Sample.LAX) "economy" = Ok false.
Proof.
  apply (proj1 (intraCountry_applies_spec (imports := Sample.imports)
                  (IntraCountryRule.new "Intra Australia" "https://example.org/au" "AU"
                     Sample.bands)
                  (Segment.mk Sample.SYD Sample.LAX) "economy")).
  right. discriminate.
Defined.

(** C3.  [IntraCountryRule.applies] compares the country fields with [!==],
    without lower-casing them: for a rule configured with [au] and a band
    that takes the distance, airports whose country is written [AU] are
    refused, airports whose country is written [au] are accepted. *)
Theorem intraCountry_applies_case_sensitive :
  let rule := IntraCountryRule.new "Intra Australia" "https://example.org/au" "au" Sample.bands in
  let upper := Segment.mk (Airport.mk "SYD" "Sydney" "AU") (Airport.mk "MEL" "Melbourne" "AU") in
  let exact := Segment.mk (Airport.mk "SYD" "Sydney" "au") (Airport.mk "MEL" "Melbourne" "au") in
  toLowerCase "AU" = "au"
  /\ IntraCountryRule.applies (imports := Sample.imports) rule upper "economy" = Ok false
  /\ IntraCountryRule.applies (imports := Sample.imports) rule exact "economy" = Ok true.
Proof. repeat split; vm_compute; reflexivity. Qed.

(** C5.  [DistanceRule.calculate] throws an [Error] whose message ends with
    the name of the rule when no band takes the distance, and then returns
    no result.  When a band is found that holds the category, the result
    carries the points and credits of that category in that band, and notes
    that give the distance and the band, with its two bounds or with the
    words for a band that has no upper bound.  The numbers in the notes are
    stated for a distance and for bounds that are whole numbers of at most
    2^53 in magnitude, which a number holds exactly and prints in decimal
    notation.  A band that lacks the category makes the read of its record
    throw, unless the category is a name that every object inherits. *)
Theorem distance_calculate_spec `{imports : Imports} (this : DistanceRule.t)
    (segment : Segment.t) (fareEarnCategory : string) :
  let d := calcDistance (Segment.fromAirport segment) (Segment.toAirport segment) in
  let name := Rule.name (DistanceRule.super this) in
  (DistanceRule._getDistanceBand this d = None ->
   DistanceRule.calculate this segment fareEarnCategory
   = Throw (Error ("No applicable distance band to calculate with for rule: " +:+ name)))
  /\ (forall (b : DistanceBand.t) (e : QantasEarnings.t),
        DistanceRule._getDistanceBand this d = Some b ->
        DistanceBand.earnings b !! fareEarnCategory = Some e ->
        safeInteger d -> safeInteger (DistanceBand.minDistance b) ->
        (forall m : Z, DistanceBand.maxDistance b = Some m -> safeInteger m) ->
        DistanceRule.calculate this segment fareEarnCategory
        = Ok {| CalculationResult.rule := name;
                CalculationResult.ruleUrl := Rule.ruleUrl (DistanceRule.super this);
                CalculationResult.fareEarnCategory := fareEarnCategory;
                CalculationResult.notes :=
                  "Distance calculated to " +:+ pretty d +:+ " miles, using band "
                  +:+ pretty (DistanceBand.minDistance b)
                  +:+ match DistanceBand.maxDistance b with
                      | Some m => " - " +:+ pretty m
                      | None => " and over"
                      end;
                CalculationResult.qantasPoints := QantasEarnings.qantasPoints e;
                CalculationResult.statusCredits := QantasEarnings.statusCredits e |})
  /\ (forall b : DistanceBand.t,
        DistanceRule._getDistanceBand this d = Some b ->
        DistanceBand.earnings b !! fareEarnCategory = None ->
        AnyCategory.inherited fareEarnCategory = false ->
        DistanceRule.calculate this segment fareEarnCategory = Throw TypeError).
Proof.
  intros d name. unfold DistanceRule.calculate. fold d. split; [|split].
  - intros ->. reflexivity.
  - intros b e -> He _ _ _. rewrite He. simpl.
    unfold Rule.buildCalculationReturn, DistanceRule.notesForDistance. fold name.
    f_equal. f_equal.
    destruct (DistanceBand.maxDistance b); simpl; reflexivity.
  - intros b -> He _. rewrite He. reflexivity.
Qed.

Lemma distance_calculate_spec_witness :
  DistanceRule.calculate (imports := Sample.imports) Sample.distanceRule
    (Segment.mk Sample.SYD Sample.MEL) "economy"
  = Ok (CalculationResult.mk "Domestic" "https://example.org/domestic" "economy"
          ("Distance calculated to " +:+ pretty 439 +:+ " miles, using band "
           +:+ pretty 0 +:+ " - " +:+ pretty 600)
          800 10).
Proof.
  apply (proj1 (proj2 (distance_calculate_spec (imports := Sample.imports) Sample.distanceRule
                         (Segment.mk Sample.SYD Sample.MEL) "economy"))
           (DistanceBand.mk 0 (Some 600) Sample.economy) (QantasEarnings.new 800 10)).
  - reflexivity.
  - reflexivity.
  - unfold safeInteger. simpl. lia.
  - unfold safeInteger. simpl. lia.
  - intros m [= <-]. unfold safeInteger. simpl. lia.
Defined.

(** ** GeographicalRule *)

Example geographical_samples :
  let out := Segment.mk Sample.SYD Sample.LAX in
  let back := Segment.mk Sample.LAX Sample.SYD in
  GeographicalRule.applies (imports := Sample.imports) GeoSample.oneWay out "economy" = Ok true
  /\ GeographicalRule.applies (imports := Sample.imports) GeoSample.oneWay back "economy" = Ok true
  /\ GeographicalRule.applies (imports := Sample.imports) GeoSample.oneWay out "business" = Ok false
  /\ GeographicalRule.applies (imports := Sample.imports) GeoSample.oneWay
       (Segment.mk Sample.SYD Sample.MEL) "economy" = Ok false
  /\ GeographicalRule.calculate (imports := Sample.imports) GeoSample.oneWay back "economy"
     = Ok (CalculationResult.mk "Australia to North America" "https://example.org/na"
             "economy" "au to North America" 800 10)
  /\ GeographicalRule.calculate (imports := Sample.imports) GeoSample.fromRegion out "business"
     = Ok (CalculationResult.mk "Oceania to US" "https://example.org/us"
             "business" "oceania to us" 1400 40)
  /\ GeographicalRule.calculate (imports := Sample.imports) GeoSample.oneWay
       (Segment.mk Sample.SYD Sample.MEL) "economy" = Throw TypeError.
Proof. repeat split; vm_compute; reflexivity. Qed.

Example geographical_both_ways_samples :
  let out := Segment.mk Sample.SYD Sample.LAX in
  let back := Segment.mk Sample.LAX Sample.SYD in
  GeographicalRule.applies (imports := Sample.imports) GeoSample.bothWays out "economy" = Ok false
  /\ GeographicalRule.applies (imports := Sample.imports) GeoSample.bothWays back "economy" = Ok true
  /\ GeographicalRule.applies (imports := Sample.imports) GeoSample.bothWays out "business" = Ok true
  /\ GeographicalRule.applies (imports := Sample.imports) GeoSample.bothWays back "business" = Ok false.
Proof. repeat split; vm_compute; reflexivity. Qed.

Lemma firstRegion_Some `{imports : Imports} (code : string) (regions : list string)
    (l : Location.t) :
  GeographicalRule.firstRegion code regions = Some l ->
  Location.type l = "region" /\ Location.value l ∈ regions
  /\ isInRegion code (Location.value l) = true.
Proof.
  unfold GeographicalRule.firstRegion.
  destruct (List.find (isInRegion code) regions) as [r|] eqn:Hfind; [|discriminate].
  intros [= <-]. simpl. apply find_some in Hfind as [Hin Hr].
  repeat split; [by apply list_elem_of_In | assumption].
Qed.

Lemma JsObject_get_keys {V : Type} (obj : JsObject.t V) (key : string) :
  key ∈ JsObject.keys obj <-> is_Some (JsObject.get obj key).
Proof.
  induction obj as [|[k v] obj IH]; simpl.
  - split; [intros H; inversion H | intros [? [=]]].
  - rewrite elem_of_cons, IH. case_bool_decide; subst; split; eauto.
    intros [->|]; [congruence | assumption].
Qed.

Lemma getOrigin_matches `{imports : Imports} (this : GeographicalRule.t) (airport : Airport.t)
    (o : Location.t) :
  GeographicalRule._getOrigin this airport = Some o -> matches airport o.
Proof.
  unfold GeographicalRule._getOrigin, matches. intros H.
  apply union_Some in H as [H | [_ H]]; [apply union_Some in H as [H | [_ H]] |].
  - destruct (Origin.city _) as [cities|]; [|discriminate].
    case_bool_decide; [|discriminate]. injection H as <-. auto.
  - destruct (Origin.country _) as [countries|]; [|discriminate].
    case_bool_decide; [|discriminate]. injection H as <-. auto.
  - destruct (Origin.region _) as [regions|]; [|discriminate].
    apply firstRegion_Some in H. tauto.
Qed.

Lemma getDestination_sound `{imports : Imports} (this : GeographicalRule.t)
    (airport : Airport.t) (d : Location.t) :
  GeographicalRule._getDestination this airport = Some d ->
  matches airport d
  /\ exists (table : JsObject.t Earnings) (e : Earnings),
       Destination.get (RuleConfig.destination (GeographicalRule.ruleConfig this))
         (Location.type d) = Some table
       /\ JsObject.get table (Location.value d) = Some e.
Proof.
  unfold GeographicalRule._getDestination, Destination.get, JsObject.has, matches. intros H.
  apply union_Some in H as [H | [_ H]]; [apply union_Some in H as [H | [_ H]] |].
  - destruct (Destination.city _) as [cities|]; [|discriminate].
    case_bool_decide as Hkey; [|discriminate]. injection H as <-. simpl.
    destruct Hkey as [e He]. split; [auto | eauto].
  - destruct (Destination.country _) as [countries|]; [|discriminate].
    case_bool_decide as Hkey; [|discriminate]. injection H as <-. simpl.
    destruct Hkey as [e He]. split; [auto | eauto].
  - destruct (Destination.region _) as [regions|]; [|discriminate].
    apply firstRegion_Some in H as (Hty & Hin & Hreg).
    apply JsObject_get_keys in Hin as [e He]. rewrite Hty. simpl.
    split; [auto | eauto].
Qed.

(** The two readings of a segment: as written first, swapped otherwise. *)
Lemma getOriginAndDestination_cases `{imports : Imports} (this : GeographicalRule.t)
    (segment : Segment.t) :
  GeographicalRule._getOriginAndDestination this segment
  = if resolves this (Segment.fromAirport segment) (Segment.toAirport segment)
    then (GeographicalRule._getOrigin this (Segment.fromAirport segment),
          GeographicalRule._getDestination this (Segment.toAirport segment))
    else (GeographicalRule._getOrigin this (Segment.toAirport segment),
          GeographicalRule._getDestination this (Segment.fromAirport segment)).
Proof.
  unfold GeographicalRule._getOriginAndDestination, resolves.
  rewrite <- negb_andb. by destruct (_ && _).
Qed.

(** A destination found by the rule has an entry in the table of its type. *)
Lemma destinationEarnings_found `{imports : Imports} (this : GeographicalRule.t)
    (segment : Segment.t) (o d : option Location.t) :
  GeographicalRule._getOriginAndDestination this segment = (o, d) ->
  is_Some d ->
  exists e : Earnings, GeographicalRule.destinationEarnings this d = Ok (Some e).
Proof.
  rewrite getOriginAndDestination_cases. intros Hpair [l ->].
  assert (exists a, GeographicalRule._getDestination this a = Some l) as [a Ha].
  { destruct (resolves _ _ _); injection Hpair as _ Hd; eauto. }
  apply getDestination_sound in Ha as (_ & table & e & Htable & He).
  exists e. unfold GeographicalRule.destinationEarnings. simpl.
  rewrite Htable. simpl. by rewrite He.
Qed.

(** What [GeographicalRule.applies] returns, without the reads that could throw. *)
Lemma geographical_applies_value `{imports : Imports} (this : GeographicalRule.t)
    (segment : Segment.t) (fareEarnCategory : string) :
  match GeographicalRule._getOriginAndDestination this segment with
  | (Some o, Some d) =>
      exists e : Earnings,
        GeographicalRule.destinationEarnings this (Some d) = Ok (Some e)
        /\ GeographicalRule.applies this segment fareEarnCategory
           = Ok (bool_decide (is_Some (e !! fareEarnCategory)))
  | _ => GeographicalRule.applies this segment fareEarnCategory = Ok false
  end.
Proof.
  unfold GeographicalRule.applies.
  destruct (GeographicalRule._getOriginAndDestination this segment) as [o d] eqn:Hpair.
  destruct o as [o|], d as [d|]; try reflexivity.
  destruct (destinationEarnings_found this segment (Some o) (Some d) Hpair) as [e He]; [eauto|].
  exists e. split; [assumption|].
  rewrite !bool_decide_eq_true_2 by eauto. simpl. rewrite He. reflexivity.
Qed.

(** ** The contract of [applies] *)

(** [applies] on every string as a category, without the reads that could
    throw. *)
Lemma anyCategory_geographical_value `{imports : Imports} (this : GeographicalRule.t)
    (segment : Segment.t) (fareEarnCategory : string) :
  match GeographicalRule._getOriginAndDestination this segment with
  | (Some o, Some d) =>
      exists e : Earnings,
        GeographicalRule.destinationEarnings this (Some d) = Ok (Some e)
        /\ AnyCategory.geographicalRuleApplies this segment fareEarnCategory
           = Ok (AnyCategory.hasProperty e fareEarnCategory)
  | _ => AnyCategory.geographicalRuleApplies this segment fareEarnCategory = Ok false
  end.
Proof.
  unfold AnyCategory.geographicalRuleApplies.
  destruct (GeographicalRule._getOriginAndDestination this segment) as [o d] eqn:Hpair.
  destruct o as [o|], d as [d|]; try reflexivity.
  destruct (destinationEarnings_found this segment (Some o) (Some d) Hpair) as [e He]; [eauto|].
  exists e. split; [assumption|].
  rewrite !bool_decide_eq_true_2 by eauto. simpl. rewrite He. reflexivity.
Qed.





(** ** Direction of a segment *)

(** With an origin or a destination that is not resolved [calculate] throws
    on the first read of the missing one. *)
Lemma geographical_calculate_unresolved `{imports : Imports} (this : GeographicalRule.t)
    (segment : Segment.t) (fareEarnCategory : string) (o d : option Location.t) :
  GeographicalRule._getOriginAndDestination this segment = (o, d) ->
  o = None \/ d = None ->
  GeographicalRule.calculate this segment fareEarnCategory = Throw TypeError.
Proof.
  intros Hpair Hnone. unfold GeographicalRule.calculate. rewrite Hpair.
  destruct d as [d|]; [|reflexivity].
  destruct Hnone as [-> | [=]].
  destruct (destinationEarnings_found this segment None (Some d) Hpair) as [e He]; [eauto|].
  rewrite He. reflexivity.
Qed.

(** C2, as stated, fails: when both readings of a segment resolve, each
    direction takes its own reading as written.  The two destinations may
    offer different categories, and then [applies] differs; and when both
    directions apply, origin and destination are exchanged in the result. *)
Lemma geographical_direction_counterexample :
  GeographicalRule.applies (imports := Sample.imports) GeoSample.bothWays
    (Segment.mk Sample.SYD Sample.LAX) "economy" = Ok false
  /\ GeographicalRule.applies (imports := Sample.imports) GeoSample.bothWays
       (reverse (Segment.mk Sample.SYD Sample.LAX)) "economy" = Ok true
  /\ GeographicalRule.applies (imports := Sample.imports) GeoSampleMore.bothWaysShared
       (Segment.mk Sample.SYD Sample.LAX) "economy" = Ok true
  /\ GeographicalRule.applies (imports := Sample.imports) GeoSampleMore.bothWaysShared
       (reverse (Segment.mk Sample.SYD Sample.LAX)) "economy" = Ok true
  /\ GeographicalRule.calculate (imports := Sample.imports) GeoSampleMore.bothWaysShared
       (Segment.mk Sample.SYD Sample.LAX) "economy"
     = Ok (CalculationResult.mk "Trans-Pacific" "https://example.org/pacific" "economy"
             "sydney to los angeles" 800 10)
  /\ GeographicalRule.calculate (imports := Sample.imports) GeoSampleMore.bothWaysShared
       (reverse (Segment.mk Sample.SYD Sample.LAX)) "economy"
     = Ok (CalculationResult.mk "Trans-Pacific" "https://example.org/pacific" "economy"
             "los angeles to sydney" 800 10).
Proof. repeat split; vm_compute; reflexivity. Qed.

(** C2, amended.  A segment is read as written when that reading resolves,
    and its reverse is read as the reverse is written when that resolves.
    [applies] gives the same answer for a segment and for its reverse
    whenever the two readings do not both resolve, and also when they both
    resolve to the same destination.  [calculate] gives the same outcome for
    both directions whenever the two readings do not both resolve, and also
    when they both resolve to the same origin and the same destination. *)
Theorem geographical_direction_agnostic `{imports : Imports} (this : GeographicalRule.t)
    (segment : Segment.t) (fareEarnCategory : string) :
  let from := Segment.fromAirport segment in
  let to := Segment.toAirport segment in
  let written := (GeographicalRule._getOrigin this from,
                  GeographicalRule._getDestination this to) in
  let swapped := (GeographicalRule._getOrigin this to,
                  GeographicalRule._getDestination this from) in
  let both := resolves this from to && resolves this to from in
  (resolves this from to = true ->
   GeographicalRule._getOriginAndDestination this segment = written)
  /\ (resolves this to from = true ->
      GeographicalRule._getOriginAndDestination this (reverse segment) = swapped)
  /\ ((both = true -> written.2 = swapped.2) ->
      GeographicalRule.applies this segment fareEarnCategory
      = GeographicalRule.applies this (reverse segment) fareEarnCategory)
  /\ ((both = true -> written = swapped) ->
      GeographicalRule._getOriginAndDestination this segment
      = GeographicalRule._getOriginAndDestination this (reverse segment)
      \/ (GeographicalRule.applies this segment fareEarnCategory = Ok false
          /\ GeographicalRule.applies this (reverse segment) fareEarnCategory = Ok false))
  /\ ((both = true -> written = swapped) ->
      GeographicalRule.calculate this segment fareEarnCategory
      = GeographicalRule.calculate this (reverse segment) fareEarnCategory).
Proof.
  intros from to written swapped both.
  pose proof (geographical_applies_value this segment fareEarnCategory) as Hfwd.
  pose proof (geographical_applies_value this (reverse segment) fareEarnCategory) as Hbwd.
  pose proof (getOriginAndDestination_cases this segment) as Hpf.
  pose proof (getOriginAndDestination_cases this (reverse segment)) as Hpb.
  simpl in Hpb. fold from to in Hpf, Hpb.
  assert (Hneither : resolves this from to = false -> resolves this to from = false ->
            GeographicalRule.applies this segment fareEarnCategory = Ok false
            /\ GeographicalRule.applies this (reverse segment) fareEarnCategory = Ok false
            /\ GeographicalRule.calculate this segment fareEarnCategory = Throw TypeError
            /\ GeographicalRule.calculate this (reverse segment) fareEarnCategory
               = Throw TypeError).
  { intros HA HB. rewrite HA in Hpf. rewrite HB in Hpb.
    assert (HnB : GeographicalRule._getOrigin this to = None
                  \/ GeographicalRule._getDestination this from = None).
    { unfold resolves in HB.
      destruct (GeographicalRule._getOrigin this to); [|by left].
      destruct (GeographicalRule._getDestination this from); [|by right].
      rewrite !bool_decide_eq_true_2 in HB by eauto. discriminate. }
    assert (HnA : GeographicalRule._getOrigin this from = None
                  \/ GeographicalRule._getDestination this to = None).
    { unfold resolves in HA.
      destruct (GeographicalRule._getOrigin this from); [|by left].
      destruct (GeographicalRule._getDestination this to); [|by right].
      rewrite !bool_decide_eq_true_2 in HA by eauto. discriminate. }
    repeat split.
    - rewrite Hpf in Hfwd.
      destruct (GeographicalRule._getOrigin this to),
        (GeographicalRule._getDestination this from); try assumption.
      by destruct HnB.
    - rewrite Hpb in Hbwd.
      destruct (GeographicalRule._getOrigin this from),
        (GeographicalRule._getDestination this to); try assumption.
      by destruct HnA.
    - by apply (geographical_calculate_unresolved this segment _ _ _ Hpf).
    - by apply (geographical_calculate_unresolved this (reverse segment) _ _ _ Hpb). }
  assert (Hsame : GeographicalRule._getOriginAndDestination this segment
                  = GeographicalRule._getOriginAndDestination this (reverse segment) ->
                  GeographicalRule.applies this segment fareEarnCategory
                  = GeographicalRule.applies this (reverse segment) fareEarnCategory
                  /\ GeographicalRule.calculate this segment fareEarnCategory
                     = GeographicalRule.calculate this (reverse segment) fareEarnCategory).
  { intros Heq. unfold GeographicalRule.applies, GeographicalRule.calculate.
    by rewrite Heq. }
  unfold both.
  destruct (resolves this from to) eqn:HA; destruct (resolves this to from) eqn:HB; simpl.
  - (* both readings resolve *)
    split; [intros _; exact Hpf|]. split; [intros _; exact Hpb|]. split; [|split].
    + intros Hd. specialize (Hd eq_refl). simpl in Hd.
      unfold GeographicalRule.applies. rewrite Hpf, Hpb, Hd.
      unfold resolves in HA, HB.
      apply andb_true_iff in HA as [HoA _]. apply andb_true_iff in HB as [HoB _].
      by rewrite HoA, HoB.
    + intros Heq. left. rewrite Hpf, Hpb. exact (Heq eq_refl).
    + intros Heq. apply Hsame. rewrite Hpf, Hpb. exact (Heq eq_refl).
  - (* only the reading as written resolves *)
    assert (Heq : GeographicalRule._getOriginAndDestination this segment
                  = GeographicalRule._getOriginAndDestination this (reverse segment))
      by congruence.
    split; [intros _; exact Hpf|]. split; [discriminate|].
    split; [intros _; apply (Hsame Heq)|]. split; [by left | intros _; apply (Hsame Heq)].
  - (* only the swapped reading resolves *)
    assert (Heq : GeographicalRule._getOriginAndDestination this segment
                  = GeographicalRule._getOriginAndDestination this (reverse segment))
      by congruence.
    split; [discriminate|]. split; [intros _; exact Hpb|].
    split; [intros _; apply (Hsame Heq)|]. split; [by left | intros _; apply (Hsame Heq)].
  - (* neither reading resolves *)
    destruct (Hneither eq_refl eq_refl) as (Hf & Hb & Hcf & Hcb).
    split; [discriminate|]. split; [discriminate|].
    split; [intros _; by rewrite Hf, Hb|].
    split; [intros _; right; by split | intros _; by rewrite Hcf, Hcb].
Qed.

Lemma geographical_direction_agnostic_witness :
  let out := Segment.mk Sample.SYD Sample.MEL in
  GeographicalRule.applies (imports := Sample.imports) GeoSampleMore.intraOceania out "economy"
  = GeographicalRule.applies (imports := Sample.imports) GeoSampleMore.intraOceania
      (reverse out) "economy".
Proof.
  intros out.
  apply (proj1 (proj2 (proj2 (geographical_direction_agnostic (imports := Sample.imports)
                                GeoSampleMore.intraOceania out "economy")))).
  intros _. reflexivity.
Defined.

Example geographical_direction_both_resolve :
  let out := Segment.mk Sample.SYD Sample.MEL in
  resolves (imports := Sample.imports) GeoSampleMore.intraOceania Sample.SYD Sample.MEL
  && resolves (imports := Sample.imports) GeoSampleMore.intraOceania Sample.MEL Sample.SYD
  = true
  /\ GeographicalRule.applies (imports := Sample.imports) GeoSampleMore.intraOceania out
       "economy" = Ok true
  /\ GeographicalRule.calculate (imports := Sample.imports) GeoSampleMore.intraOceania out
       "economy"
     = GeographicalRule.calculate (imports := Sample.imports) GeoSampleMore.intraOceania
         (reverse out) "economy".
Proof. repeat split; vm_compute; reflexivity. Qed.

(** ** Notes of a geographical rule *)

Lemma inner_renders `{imports : Imports} (l : Location.t) (s : string) :
  Renders l s -> GeographicalRule._buildCalculationNotesInner (Some l) = Ok s.
Proof.
  intros [v|v|v n Hn Hne|v Hv]; unfold GeographicalRule._buildCalculationNotesInner; simpl;
    try reflexivity.
  - rewrite Hn. destruct n; [congruence | reflexivity].
  - destruct Hv as [-> | ->]; reflexivity.
Qed.

Lemma matches_renders `{imports : Imports} (airport : Airport.t) (l : Location.t) :
  matches airport l -> exists s : string, Renders l s.
Proof.
  destruct l as [ty v]. unfold matches. simpl.
  intros [[-> _] | [[-> _] | [-> _]]].
  - exists v. constructor.
  - exists v. constructor.
  - destruct (REGION_DISPLAY !! v) as [[|c n]|] eqn:Hv.
    + exists v. apply Renders_region_key. auto.
    + exists (String c n). by apply Renders_region_display.
    + exists v. apply Renders_region_key. auto.
Qed.

(** C6.  When [applies] says yes, [calculate] returns a result whose notes
    are the rendering of the matched origin, the word [to] between spaces,
    and the rendering of the matched destination.  A city or a country is
    rendered as the matched lower-case name, a region by its entry of
    [REGION_DISPLAY] or, without one, by its key.  A location of a type
    other than the four known ones makes the rendering throw an [Error]
    whose message ends with that type. *)
Theorem geographical_calculate_notes `{imports : Imports} (this : GeographicalRule.t)
    (segment : Segment.t) (fareEarnCategory : string) :
  (GeographicalRule.applies this segment fareEarnCategory = Ok true ->
   exists (o d : Location.t) (ro rd : string) (r : CalculationResult.t),
     GeographicalRule._getOriginAndDestination this segment = (Some o, Some d)
     /\ ((matches (Segment.fromAirport segment) o /\ matches (Segment.toAirport segment) d)
         \/ (matches (Segment.toAirport segment) o /\ matches (Segment.fromAirport segment) d))
     /\ Renders o ro /\ Renders d rd
     /\ GeographicalRule.calculate this segment fareEarnCategory = Ok r
     /\ CalculationResult.notes r = ro +:+ " to " +:+ rd)
  /\ (forall (l : Location.t) (s : string),
        Renders l s -> GeographicalRule._buildCalculationNotesInner (Some l) = Ok s)
  /\ (forall l : Location.t,
        Location.type l <> "airport" -> Location.type l <> "city" ->
        Location.type l <> "country" -> Location.type l <> "region" ->
        GeographicalRule._buildCalculationNotesInner (Some l)
        = Throw (Error ("Cannot create calcluation notes for unknown type " +:+ Location.type l))).
Proof.
  split; [|split].
  - intros Happ.
    pose proof (geographical_applies_value this segment fareEarnCategory) as Hv.
    pose proof (getOriginAndDestination_cases this segment) as Hcases.
    destruct (GeographicalRule._getOriginAndDestination this segment) as [[o|] [d|]] eqn:Hpair;
      try (rewrite Hv in Happ; discriminate).
    destruct Hv as (e & He & Hdec). rewrite Hdec in Happ. injection Happ as Hcat.
    apply bool_decide_eq_true in Hcat as [q Hq].
    assert (Hm : (matches (Segment.fromAirport segment) o
                  /\ matches (Segment.toAirport segment) d)
                 \/ (matches (Segment.toAirport segment) o
                     /\ matches (Segment.fromAirport segment) d)).
    { destruct (resolves _ _ _); injection Hcases as Ho Hd; symmetry in Ho, Hd;
        apply getOrigin_matches in Ho; apply getDestination_sound in Hd as [Hd _]; auto. }
    assert (exists ro, Renders o ro) as [ro Hro]
      by (destruct Hm as [[Hm _]|[Hm _]]; eapply matches_renders, Hm).
    assert (exists rd, Renders d rd) as [rd Hrd]
      by (destruct Hm as [[_ Hm]|[_ Hm]]; eapply matches_renders, Hm).
    exists o, d, ro, rd. eexists. split; [reflexivity|]. split; [exact Hm|].
    split; [exact Hro|]. split; [exact Hrd|].
    unfold GeographicalRule.calculate. rewrite Hpair, He. simpl.
    unfold GeographicalRule._buildCalculationNotes.
    rewrite (inner_renders o ro Hro), (inner_renders d rd Hrd). simpl.
    rewrite Hq. simpl. split; reflexivity.
  - apply @inner_renders.
  - intros l H1 H2 H3 H4. unfold GeographicalRule._buildCalculationNotesInner. simpl.
    by rewrite !bool_decide_eq_false_2.
Qed.

Lemma geographical_calculate_notes_witness :
  exists (o d : Location.t) (ro rd : string) (r : CalculationResult.t),
    GeographicalRule._getOriginAndDestination (imports := Sample.imports) GeoSample.oneWay
      (Segment.mk Sample.LAX Sample.SYD)
    = (Some o, Some d)
    /\ ((matches (imports := Sample.imports) Sample.LAX o
         /\ matches (imports := Sample.imports) Sample.SYD d)
        \/ (matches (imports := Sample.imports) Sample.SYD o
            /\ matches (imports := Sample.imports) Sample.LAX d))
    /\ Renders (imports := Sample.imports) o ro /\ Renders (imports := Sample.imports) d rd
    /\ GeographicalRule.calculate (imports := Sample.imports) GeoSample.oneWay
         (Segment.mk Sample.LAX Sample.SYD) "economy" = Ok r
    /\ CalculationResult.notes r = ro +:+ " to " +:+ rd.
Proof.
  apply (proj1 (geographical_calculate_notes (imports := Sample.imports) GeoSample.oneWay
                  (Segment.mk Sample.LAX Sample.SYD) "economy")).
  vm_compute. reflexivity.
Defined.

(** ** parseEarningRates *)

(** *** The stages of the tokenizer *)

Lemma forallChars_impl (p q : ascii -> bool) (s : string) :
  (forall c : ascii, p c = true -> q c = true) ->
  forallChars p s = true -> forallChars q s = true.
Proof.
  intros Hpq. induction s as [|c s IH]; simpl; [done|].
  intros [Hc Hs]%andb_true_iff. rewrite (Hpq c Hc). auto.
Qed.

Lemma split_not_nil (sep : ascii) (s : string) : split sep s <> [].
Proof.
  destruct s as [|c s]; simpl; [done|].
  case_bool_decide; [done|]. by destruct (split sep s).
Qed.

(** Splitting loses nothing: the tokens joined by the separator give the
    string back. *)
Lemma join_split (sep : ascii) (s : string) : join sep (split sep s) = s.
Proof.
  induction s as [|c s IH]; [reflexivity|]. simpl.
  pose proof (split_not_nil sep s) as Hne.
  case_bool_decide as Hc.
  - subst c. destruct (split sep s) as [|t ts]; [done|].
    change (join sep ("" :: t :: ts)) with (String sep (join sep (t :: ts))).
    by rewrite IH.
  - destruct (split sep s) as [|t ts]; [done|]. rewrite <- IH.
    destruct ts; reflexivity.
Qed.

(** No token holds the separator, and a property of all characters of the
    string is a property of all characters of every token. *)
Lemma split_forallChars (p : ascii -> bool) (sep : ascii) (s : string) (t : string) :
  forallChars p s = true -> t ∈ split sep s ->
  forallChars (fun c => p c && negb (bool_decide (c = sep))) t = true.
Proof.
  revert t. induction s as [|c s IH]; simpl; intros t Hs Ht.
  - apply list_elem_of_singleton in Ht as ->. reflexivity.
  - apply andb_true_iff in Hs as [Hc Hs]. case_bool_decide as Hsep.
    + apply elem_of_cons in Ht as [-> | Ht]; [reflexivity | auto].
    + pose proof (split_not_nil sep s) as Hne.
      destruct (split sep s) as [|t' ts]; [done|].
      apply elem_of_cons in Ht as [-> | Ht].
      * simpl. rewrite Hc, (bool_decide_eq_false_2 _ Hsep). simpl.
        apply IH; [assumption | left].
      * apply IH; [assumption | by right].
Qed.

Lemma removeAll_forallChars (c : ascii) (s : string) :
  forallChars (fun d => negb (bool_decide (d = c))) (removeAll c s) = true.
Proof.
  induction s as [|d s IH]; simpl; [reflexivity|].
  case_bool_decide as Hd; [assumption|]. simpl.
  by rewrite (bool_decide_eq_false_2 _ Hd).
Qed.

(** After the collapse the only white space left is the plain space, and
    what held of every character and holds of the space still holds. *)
Lemma collapseFrom_forallChars (p : ascii -> bool) (in_run : bool) (s : string) :
  p " "%char = true -> forallChars p s = true ->
  forallChars (fun c => p c && (negb (isWhiteSpace c) || bool_decide (c = " "%char)))
    (collapseFrom in_run s) = true.
Proof.
  intros Hsp. revert in_run. induction s as [|c s IH]; intros in_run; simpl; [done|].
  intros [Hc Hs]%andb_true_iff.
  destruct (isWhiteSpace c) eqn:Hw.
  - destruct in_run; [by apply IH|]. simpl. rewrite Hsp. simpl. by apply IH.
  - simpl. rewrite Hc, Hw. simpl. by apply IH.
Qed.

Lemma collapseFrom_noSpaceRun (in_run : bool) (s : string) :
  noSpaceRun in_run (collapseFrom in_run s) = true.
Proof.
  revert in_run. induction s as [|c s IH]; intros in_run; simpl; [reflexivity|].
  destruct (isWhiteSpace c) eqn:Hw.
  - destruct in_run; [apply IH|]. simpl. apply IH.
  - simpl. rewrite Hw, andb_false_r. simpl. apply IH.
Qed.

(** [trim] takes white space away at both ends, and nothing else. *)
Lemma trimStart_spec (s : string) :
  exists l : string,
    s = l +:+ trimStart s /\ forallChars isWhiteSpace l = true
    /\ match trimStart s with String c _ => isWhiteSpace c = false | EmptyString => True end.
Proof.
  induction s as [|c s (l & Hl & Hws & Hhead)]; simpl.
  - by exists EmptyString.
  - destruct (isWhiteSpace c) eqn:Hc.
    + exists (String c l). simpl. rewrite Hc. split; [|auto].
      change (String c s = String c (l +:+ trimStart s)). by f_equal.
    + exists EmptyString. simpl. by rewrite Hc.
Qed.

Lemma trimEnd_spec (s : string) :
  exists r : string,
    s = trimEnd s +:+ r /\ forallChars isWhiteSpace r = true.
Proof.
  induction s as [|c s (r & Hr & Hws)]; simpl.
  - by exists EmptyString.
  - destruct (trimEnd s) as [|c' t] eqn:Ht.
    + change (s = r) in Hr. subst r. destruct (isWhiteSpace c) eqn:Hc.
      * exists (String c s). simpl. by rewrite Hc.
      * by exists s.
    + exists r. split; [|assumption].
      change (String c s = String c (String c' t +:+ r)). by f_equal.
Qed.

Lemma trim_spec (s : string) :
  exists l r : string,
    s = l +:+ trim s +:+ r
    /\ forallChars isWhiteSpace l = true /\ forallChars isWhiteSpace r = true
    /\ match trim s with String c _ => isWhiteSpace c = false | EmptyString => True end.
Proof.
  destruct (trimStart_spec s) as (l & Hl & Hwl & Hhead).
  destruct (trimEnd_spec (trimStart s)) as (r & Hr & Hwr).
  exists l, r. unfold trim. repeat split; try assumption.
  - by rewrite <- Hr.
  - destruct (trimStart s) as [|c t]; [exact I|]. simpl in *.
    destruct (trimEnd t); [by rewrite Hhead | assumption].
Qed.

(** Removing the commas before or after the collapse of white space gives
    the same string when no comma touches white space. *)
Lemma collapse_removeAll_comma (previousSpace previousComma : bool) (s : string) :
  commasInsideWords previousSpace previousComma s = true ->
  collapseFrom previousSpace (removeAll "," s)
  = removeAll "," (collapseFrom previousSpace s).
Proof.
  revert previousSpace previousComma.
  induction s as [|c s IH]; intros b k; simpl; [reflexivity|].
  intros [[Hsc Hcs]%andb_true_iff Hrest]%andb_true_iff.
  apply negb_true_iff in Hsc, Hcs.
  case_bool_decide as Hcomma.
  - subst c. change (isWhiteSpace ",") with false in *. simpl.
    rewrite andb_true_r in Hsc. subst b. by apply (IH false true).
  - destruct (isWhiteSpace c) eqn:Hw; simpl.
    + rewrite Hw, andb_true_r in *. subst k.
      destruct b; simpl; rewrite (IH true false Hrest); reflexivity.
    + rewrite Hw, (bool_decide_eq_false_2 _ Hcomma). f_equal. by apply (IH false false).
Qed.

Example comma_between_spaces :
  pointsTokens "1 , 2" = ["1"; "2"]
  /\ split " " (removeAll "," (collapseWhiteSpace (trim "1 , 2"))) = ["1"; ""; "2"]
  /\ commasInsideWords false false (trim "1 , 2") = false
  /\ commasInsideWords false false (trim " 1,000   2,500 ") = true.
Proof. repeat split; reflexivity. Qed.

(** No token of either string holds white space, and no token of the points
    string holds a comma. *)
Lemma tokens_clean (s : string) (t : string) :
  (t ∈ creditsTokens s -> forallChars (fun c => negb (isWhiteSpace c)) t = true)
  /\ (t ∈ pointsTokens s ->
      forallChars (fun c => negb (isWhiteSpace c) && negb (bool_decide (c = ","%char))) t = true).
Proof.
  split; intros Ht.
  - assert (Hall : forallChars (fun _ => true) (trim s) = true)
      by (induction (trim s); simpl; auto).
    apply (collapseFrom_forallChars _ false _ eq_refl) in Hall.
    apply (split_forallChars _ " "%char _ t Hall) in Ht.
    revert Ht. apply forallChars_impl. intros c. simpl.
    destruct (isWhiteSpace c); simpl; [|done]. by destruct (bool_decide (c = " "%char)).
  - pose proof (removeAll_forallChars ","%char (trim s)) as Hall.
    apply (collapseFrom_forallChars _ false _ eq_refl) in Hall.
    apply (split_forallChars _ " "%char _ t Hall) in Ht.
    revert Ht. apply forallChars_impl. intros c. simpl.
    destruct (bool_decide (c = ","%char)); simpl; [done|].
    destruct (isWhiteSpace c); simpl; [|done]. by destruct (bool_decide (c = " "%char)).
Qed.

(** *** Positions *)

Lemma fillRates_absent (labels points credits : list string) (index : nat)
    (retval : Earnings) (l : string) :
  l ∉ labels -> fillRates index labels points credits retval !! l = retval !! l.
Proof.
  revert index retval.
  induction labels as [|a labels IH]; intros index retval Hl; simpl; [reflexivity|].
  apply not_elem_of_cons in Hl as [Hne Hl].
  rewrite IH by assumption. by rewrite lookup_insert_ne.
Qed.

Lemma fillRates_last (labels points credits : list string) (index : nat)
    (retval : Earnings) (i : nat) (l : string) :
  lastPosition labels i l ->
  fillRates index labels points credits retval !! l = Some (rateAt points credits (index + i)).
Proof.
  revert index retval i.
  induction labels as [|a labels IH]; intros index retval i [Hi Hlast]; [by destruct i|].
  destruct i as [|i]; simpl in *.
  - injection Hi as ->. rewrite fillRates_absent.
    + rewrite lookup_insert_eq. by rewrite Nat.add_0_r.
    + intros Hin. apply list_elem_of_lookup in Hin as [j Hj].
      apply (Hlast (S j)); [lia | exact Hj].
  - rewrite (IH (S index) _ i).
    + f_equal. f_equal. lia.
    + split; [assumption|]. intros j Hj. apply (Hlast (S j)). lia.
Qed.

Lemma fillRates_dom (labels points credits : list string) (index : nat) (retval : Earnings) :
  dom (fillRates index labels points credits retval) = list_to_set labels ∪ dom retval.
Proof.
  revert index retval.
  induction labels as [|a labels IH]; intros index retval; cbn [fillRates].
  - by rewrite list_to_set_nil, (left_id_L ∅ (∪)).
  - rewrite IH, dom_insert_L, list_to_set_cons.
    apply set_eq. intros x. rewrite !elem_of_union. tauto.
Qed.

(** *** Tokens that are not numbers *)

Lemma digitValue_decimal (c : ascii) :
  isDecimalDigit c = true ->
  digitValue c = Some (code c - 48) /\ 0 <= code c - 48 < 10.
Proof.
  unfold isDecimalDigit, digitValue. intros H. rewrite H.
  apply andb_true_iff in H as [H1%Z.leb_le H2%Z.leb_le]. split; [reflexivity | lia].
Qed.

Lemma digitValue_not_decimal (c : ascii) :
  isDecimalDigit c = false ->
  match digitValue c with Some d => 10 <= d | None => True end.
Proof.
  unfold isDecimalDigit, digitValue. intros ->.
  destruct ((97 <=? code c) && (code c <=? 122)) eqn:Hl.
  - apply andb_true_iff in Hl as [H1%Z.leb_le H2%Z.leb_le]. lia.
  - destruct ((65 <=? code c) && (code c <=? 90)) eqn:Hu; [|exact I].
    apply andb_true_iff in Hu as [H1%Z.leb_le H2%Z.leb_le]. lia.
Qed.

(** Reading decimal digits stops at once on a character that is not one. *)
Lemma parseDigits_stop (acc : option Z) (c : ascii) (s : string) :
  isDecimalDigit c = false -> parseDigits 10 acc (String c s) = acc.
Proof.
  intros Hc. simpl. pose proof (digitValue_not_decimal c Hc) as Hd.
  destruct (digitValue c) as [d|]; [|reflexivity].
  by rewrite (proj2 (Z.ltb_ge d 10)).
Qed.

Lemma noDecimalDigit_trimStart (s : string) :
  noDecimalDigit s = true -> noDecimalDigit (trimStart s) = true.
Proof.
  induction s as [|c s IH]; simpl; [done|].
  intros H. destruct (isWhiteSpace c); [|exact H].
  apply andb_true_iff in H as [_ H]. auto.
Qed.

Lemma noDecimalDigit_parseDigits (s : string) :
  noDecimalDigit s = true -> parseDigits 10 None s = None.
Proof.
  destruct s as [|c s]; [reflexivity|]. simpl noDecimalDigit.
  intros [Hc _]%andb_true_iff. apply parseDigits_stop. by apply negb_true_iff.
Qed.

Lemma noDecimalDigit_hexPrefix (s : string) :
  noDecimalDigit s = true -> hasHexPrefix s = false.
Proof.
  destruct s as [|c [|x s]]; try reflexivity. simpl.
  intros [Hc _]%andb_true_iff. apply bool_decide_eq_false_2. intros [-> _]. discriminate.
Qed.

(** A token without a decimal digit, the empty token among them, is not a
    number for [parseInt]. *)
Lemma parseInt_noDecimalDigit (s : string) :
  noDecimalDigit s = true -> parseInt s = None.
Proof.
  intros Hs%noDecimalDigit_trimStart. unfold parseInt.
  set (s1 := trimStart s) in *.
  assert (Hs2 : noDecimalDigit (if hasSign s1 then dropChars 1 s1 else s1) = true).
  { destruct (hasSign s1); [|exact Hs]. destruct s1 as [|c r]; [exact Hs|].
    simpl in *. by apply andb_true_iff in Hs as [_ Hs]. }
  rewrite (noDecimalDigit_hexPrefix _ Hs2).
  by rewrite (noDecimalDigit_parseDigits _ Hs2).
Qed.

(** C9.  [parseEarningRates] gives every label a record, whatever the two
    strings are.  At the position of a label, a token without any decimal
    digit (the empty token too), and more generally a token that [parseInt]
    does not read as a number, counts for 0; so does a position beyond the
    end of a token list. *)
Theorem parseEarningRates_lenient (qantasPointsString qantasCreditsString : string)
    (fareClasses : list string) :
  let points := pointsTokens qantasPointsString in
  let credits := creditsTokens qantasCreditsString in
  let retval := parseEarningRates qantasPointsString qantasCreditsString fareClasses in
  dom retval = list_to_set fareClasses
  /\ (forall t : string, noDecimalDigit t = true -> parseInt t = None)
  /\ forall (i : nat) (l : string),
       lastPosition fareClasses i l ->
       exists e : QantasEarnings.t,
         retval !! l = Some e
         /\ (forall t : string, points !! i = Some t -> parseInt t = None ->
               QantasEarnings.qantasPoints e = 0)
         /\ (forall t : string, credits !! i = Some t -> parseInt t = None ->
               QantasEarnings.statusCredits e = 0)
         /\ ((length points <= i)%nat -> QantasEarnings.qantasPoints e = 0)
         /\ ((length credits <= i)%nat -> QantasEarnings.statusCredits e = 0).
Proof.
  intros points credits retval. split; [|split].
  - unfold retval, parseEarningRates. rewrite fillRates_dom, dom_empty_L.
    apply (right_id_L ∅ (∪)).
  - exact parseInt_noDecimalDigit.
  - intros i l Hlast. eexists. split.
    + unfold retval, parseEarningRates. apply (fillRates_last _ _ _ 0%nat ∅ i l Hlast).
    + unfold rateAt. rewrite Nat.add_0_l.
      cbn [QantasEarnings.qantasPoints QantasEarnings.statusCredits].
      fold points credits. unfold parseIntOf. repeat split.
      * intros t -> Ht. change (default "undefined" (Some t)) with t. by rewrite Ht.
      * intros t -> Ht. change (default "undefined" (Some t)) with t. by rewrite Ht.
      * intros Hi. by rewrite (lookup_ge_None_2 points i Hi).
      * intros Hi. by rewrite (lookup_ge_None_2 credits i Hi).
Qed.

Lemma parseEarningRates_lenient_witness :
  exists e : QantasEarnings.t,
    parseEarningRates "abc 500" "10 5" ["Y"; "J"; "F"] !! "F" = Some e
    /\ (forall t : string, pointsTokens "abc 500" !! 2%nat = Some t -> parseInt t = None ->
          QantasEarnings.qantasPoints e = 0)
    /\ (forall t : string, creditsTokens "10 5" !! 2%nat = Some t -> parseInt t = None ->
          QantasEarnings.statusCredits e = 0)
    /\ ((length (pointsTokens "abc 500") <= 2)%nat -> QantasEarnings.qantasPoints e = 0)
    /\ ((length (creditsTokens "10 5") <= 2)%nat -> QantasEarnings.statusCredits e = 0).
Proof.
  apply (proj2 (proj2 (parseEarningRates_lenient "abc 500" "10 5" ["Y"; "J"; "F"])) 2%nat "F").
  split; [reflexivity|]. intros [|[|[|j]]] Hj; (lia || discriminate).
Defined.

Example parseEarningRates_lenient_samples :
  parseEarningRates "abc 500" "10 5" ["Y"; "J"]
  = {[ "Y" := QantasEarnings.new 0 10; "J" := QantasEarnings.new 500 5 ]}
  /\ parseEarningRates "" "  " ["Y"; "J"]
     = {[ "Y" := QantasEarnings.new 0 0; "J" := QantasEarnings.new 0 0 ]}
  /\ parseEarningRates "7" "- x1" ["Y"; "J"; "F"]
     = {[ "Y" := QantasEarnings.new 7 0; "J" := QantasEarnings.new 0 0;
          "F" := QantasEarnings.new 0 0 ]}.
Proof. repeat split; vm_compute; reflexivity. Qed.

(** *** Tokens that begin with digits *)

Lemma parseDigits_decimal (ds : string) (acc : option Z) (ch : ascii) (rest : string) :
  allDecimalDigits ds = true -> isDecimalDigit ch = false ->
  parseDigits 10 acc (ds +:+ String ch rest)
  = match ds with
    | EmptyString => acc
    | _ => Some (default 0 acc * 10 ^ Z.of_nat (String.length ds) + decimalValue ds)
    end.
Proof.
  intros Hds Hch. revert acc.
  induction ds as [|c ds IH]; intros acc.
  - by apply parseDigits_stop.
  - cbn [allDecimalDigits] in Hds. apply andb_true_iff in Hds as [Hc Hds].
    destruct (digitValue_decimal c Hc) as [Hd Hrange].
    change (String c ds +:+ String ch rest) with (String c (ds +:+ String ch rest)).
    cbn [parseDigits]. rewrite Hd.
    rewrite (proj2 (Z.ltb_lt _ 10)) by lia.
    rewrite (IH Hds). cbn [String.length decimalValue].
    destruct ds as [|c' ds'].
    + f_equal. cbn. lia.
    + f_equal. cbn [default]. rewrite Nat2Z.inj_succ, Z.pow_succ_r by lia.
      unfold default, from_option, id. lia.
Qed.

Lemma decimalDigit_not_space (c : ascii) : isDecimalDigit c = true -> isWhiteSpace c = false.
Proof.
  unfold isDecimalDigit, isWhiteSpace.
  intros [H1%Z.leb_le H2%Z.leb_le]%andb_true_iff.
  rewrite !orb_false_iff, andb_false_iff, !Z.leb_gt, !Z.eqb_neq. lia.
Qed.

Lemma decimalDigit_not_sign (c : ascii) (s : string) :
  isDecimalDigit c = true -> hasSign (String c s) = false /\ isNegative (String c s) = false.
Proof.
  intros Hc. simpl. split; apply bool_decide_eq_false_2.
  - intros [-> | ->]; discriminate.
  - intros ->; discriminate.
Qed.

(** A token that begins with decimal digits has the prefix of a hexadecimal
    number only when it begins with [0x] or [0X]. *)
Lemma hasHexPrefix_digits (ds : string) (ch : ascii) (rest : string) :
  ds <> EmptyString -> allDecimalDigits ds = true ->
  hasHexPrefix (ds +:+ String ch rest)
  = bool_decide (ds = "0" /\ (ch = "x"%char \/ ch = "X"%char)).
Proof.
  destruct ds as [|c [|c' ds]]; [done | |]; intros _ Hds; simpl.
  - apply bool_decide_ext. split.
    + intros [-> H]. auto.
    + intros [[= ->] H]. auto.
  - simpl in Hds. apply andb_true_iff in Hds as [_ [Hc' _]%andb_true_iff].
    rewrite !bool_decide_eq_false_2; [reflexivity | |].
    + intros [[=] _].
    + intros [_ [-> | ->]]; discriminate.
Qed.

Lemma parseInt_decimal_prefix (ds : string) (ch : ascii) (rest : string) :
  ds <> EmptyString -> allDecimalDigits ds = true -> isDecimalDigit ch = false ->
  parseInt (ds +:+ String ch rest)
  = if bool_decide (ds = "0" /\ (ch = "x"%char \/ ch = "X"%char))
    then parseDigits 16 None rest
    else Some (decimalValue ds).
Proof.
  intros Hne Hds Hch. unfold parseInt.
  assert (Htrim : trimStart (ds +:+ String ch rest) = ds +:+ String ch rest).
  { destruct ds as [|c ds]; [done|]. simpl in *.
    apply andb_true_iff in Hds as [Hc _]. by rewrite (decimalDigit_not_space c Hc). }
  rewrite Htrim.
  assert (Hsign : hasSign (ds +:+ String ch rest) = false
                  /\ isNegative (ds +:+ String ch rest) = false).
  { destruct ds as [|c ds]; [done|]. simpl in Hds.
    apply andb_true_iff in Hds as [Hc _]. by apply decimalDigit_not_sign. }
  destruct Hsign as [-> ->].
  rewrite (hasHexPrefix_digits ds ch rest Hne Hds).
  case_bool_decide as Hhex.
  - destruct Hhex as [-> _].
    change (dropChars 2 ("0" +:+ String ch rest)) with rest.
    destruct (parseDigits 16 None rest) as [n|]; [|reflexivity]. f_equal. lia.
  - rewrite (parseDigits_decimal ds None ch rest Hds Hch).
    destruct ds as [|c ds]; [done|]. f_equal. cbn [default]. lia.
Qed.

(** C10, as stated, fails on a credits token that begins with [0x]: its
    leading decimal digits are the single digit 0, and the value assigned is
    the hexadecimal number that follows the prefix. *)
Lemma credits_prefix_counterexample :
  creditsTokens "0x1F" = ["0" +:+ String "x" "1F"]
  /\ allDecimalDigits "0" = true
  /\ isDecimalDigit "x" = false
  /\ decimalValue "0" = 0
  /\ parseEarningRates "5" "0x1F" ["Y"] !! "Y" = Some (QantasEarnings.new 5 31).
Proof. repeat split; vm_compute; reflexivity. Qed.

(** C10, amended.  Commas are kept in the credits string, and [parseInt]
    reads the longest prefix of digits.  For a credits token made of one or
    more decimal digits followed by a character that is not a decimal digit,
    the credits of the label at that position are the number that the
    leading digits denote, unless the token begins with [0x] or [0X]: then
    they are the hexadecimal number that follows the prefix, or 0 when no
    hexadecimal digit follows.  Both are stated for numbers of at most 2^53,
    which are held exactly; a larger one is rounded to the nearest double. *)
Theorem parseEarningRates_credits_prefix (qantasPointsString qantasCreditsString : string)
    (fareClasses : list string) (i : nat) (l : string)
    (ds : string) (ch : ascii) (rest : string) :
  lastPosition fareClasses i l ->
  creditsTokens qantasCreditsString !! i = Some (ds +:+ String ch rest) ->
  ds <> EmptyString -> allDecimalDigits ds = true -> isDecimalDigit ch = false ->
  exists e : QantasEarnings.t,
    parseEarningRates qantasPointsString qantasCreditsString fareClasses !! l = Some e
    /\ (~ (ds = "0" /\ (ch = "x"%char \/ ch = "X"%char)) ->
        safeInteger (decimalValue ds) ->
        QantasEarnings.statusCredits e = decimalValue ds)
    /\ (ds = "0" /\ (ch = "x"%char \/ ch = "X"%char) ->
        safeInteger (orZero (parseDigits 16 None rest)) ->
        QantasEarnings.statusCredits e = orZero (parseDigits 16 None rest)).
Proof.
  intros Hlast Htoken Hne Hds Hch. eexists. split.
  - unfold parseEarningRates. apply (fillRates_last _ _ _ 0%nat ∅ i l Hlast).
  - unfold rateAt. rewrite Nat.add_0_l. cbn [QantasEarnings.statusCredits].
    rewrite Htoken. unfold parseIntOf.
    change (default "undefined" (Some (ds +:+ String ch rest))) with (ds +:+ String ch rest).
    rewrite (parseInt_decimal_prefix ds ch rest Hne Hds Hch).
    split; intros Hhex _.
    + by rewrite (bool_decide_eq_false_2 _ Hhex).
    + by rewrite (bool_decide_eq_true_2 _ Hhex).
Qed.

Lemma parseEarningRates_credits_prefix_witness :
  exists e : QantasEarnings.t,
    parseEarningRates "1,000 500" "1,000 500x" ["Y"; "J"] !! "Y" = Some e
    /\ (~ ("1" = "0" /\ (","%char = "x"%char \/ ","%char = "X"%char)) ->
        safeInteger (decimalValue "1") ->
        QantasEarnings.statusCredits e = decimalValue "1")
    /\ ("1" = "0" /\ (","%char = "x"%char \/ ","%char = "X"%char) ->
        safeInteger (orZero (parseDigits 16 None "000")) ->
        QantasEarnings.statusCredits e = orZero (parseDigits 16 None "000")).
Proof.
  apply (parseEarningRates_credits_prefix "1,000 500" "1,000 500x" ["Y"; "J"] 0%nat "Y"
           "1" ","%char "000").
  - split; [reflexivity|]. intros [|[|[|j]]] Hj; (lia || discriminate).
  - reflexivity.
  - discriminate.
  - reflexivity.
  - reflexivity.
Defined.

Example parseEarningRates_credits_samples :
  parseEarningRates "1,000 500" "1,000 500x" ["Y"; "J"]
  = {[ "Y" := QantasEarnings.new 1000 1; "J" := QantasEarnings.new 500 500 ]}
  /\ decimalValue "1" = 1 /\ decimalValue "500" = 500.
Proof. repeat split; vm_compute; reflexivity. Qed.

(** * Further properties of the code *)

(** ** [calculate] returns exactly when [applies] says yes *)

(** X1.  For a category that is not a name every object inherits,
    [DistanceRule.calculate] returns a result exactly when
    [DistanceRule.applies] says yes for the same arguments; in every other
    case it throws. *)
Theorem distance_calculate_iff_applies `{imports : Imports} (this : DistanceRule.t)
    (segment : Segment.t) (fareEarnCategory : string) :
  AnyCategory.inherited fareEarnCategory = false ->
  ((exists r : CalculationResult.t,
       DistanceRule.calculate this segment fareEarnCategory = Ok r)
   <-> DistanceRule.applies this segment fareEarnCategory = Ok true)
  /\ ((exists r : CalculationResult.t,
          DistanceRule.calculate this segment fareEarnCategory = Ok r)
      <-> AnyCategory.distanceRuleApplies this segment fareEarnCategory = Ok true).
Proof.
  intros Hplain.
  unfold DistanceRule.calculate, DistanceRule.applies, AnyCategory.distanceRuleApplies,
    AnyCategory.hasProperty.
  rewrite Hplain.
  destruct (DistanceRule._getDistanceBand this _) as [b|].
  - destruct (DistanceBand.earnings b !! fareEarnCategory) as [e|] eqn:He; simpl.
    + split; (split; [reflexivity | eauto]).
    + split; (split; [intros [r [=]] | discriminate]).
  - split; (split; [intros [r [=]] | discriminate]).
Qed.

Lemma distance_calculate_iff_applies_witness :
  ((exists r : CalculationResult.t,
       DistanceRule.calculate (imports := Sample.imports) Sample.distanceRule
         (Segment.mk Sample.SYD Sample.MEL) "economy" = Ok r)
   <-> DistanceRule.applies (imports := Sample.imports) Sample.distanceRule
         (Segment.mk Sample.SYD Sample.MEL) "economy" = Ok true)
  /\ ((exists r : CalculationResult.t,
          DistanceRule.calculate (imports := Sample.imports) Sample.distanceRule
            (Segment.mk Sample.SYD Sample.MEL) "economy" = Ok r)
      <-> AnyCategory.distanceRuleApplies (imports := Sample.imports) Sample.distanceRule
            (Segment.mk Sample.SYD Sample.MEL) "economy" = Ok true).
Proof.
  apply (distance_calculate_iff_applies (imports := Sample.imports) Sample.distanceRule
           (Segment.mk Sample.SYD Sample.MEL) "economy").
  reflexivity.
Defined.

(** X2.  For a category that is not a name every object inherits,
    [FareClassRule.calculate] returns a result exactly when
    [FareClassRule.applies] says yes, and the result then holds the notes,
    the points and the credits of the entry of the category, as stored. *)
Theorem fareClass_calculate_iff_applies (this : FareClassRule.t)
    (segment : Segment.t) (fareEarnCategory : string) :
  AnyCategory.inherited fareEarnCategory = false ->
  ((exists r : CalculationResult.t,
       FareClassRule.calculate this segment fareEarnCategory = Ok r)
   <-> AnyCategory.fareClassRuleApplies this segment fareEarnCategory = Ok true)
  /\ forall r : CalculationResult.t,
       FareClassRule.calculate this segment fareEarnCategory = Ok r ->
       exists e : FareClassEarning.t,
         FareClassRule.fareClassEarnings this !! fareEarnCategory = Some e
         /\ CalculationResult.notes r = FareClassEarning.calculationNotes e
         /\ CalculationResult.qantasPoints r = FareClassEarning.qantasPoints e
         /\ CalculationResult.statusCredits r = FareClassEarning.statusCredits e.
Proof.
  intros Hplain.
  unfold FareClassRule.calculate, AnyCategory.fareClassRuleApplies, AnyCategory.hasProperty.
  rewrite Hplain.
  destruct (FareClassRule.fareClassEarnings this !! fareEarnCategory) as [e|]; simpl.
  - split; [split; [reflexivity | eauto] |].
    intros r [= <-]. exists e. by repeat split.
  - split; [split; [intros [r [=]] | discriminate] | discriminate].
Qed.

Lemma fareClass_calculate_iff_applies_witness :
  let r :=
    CalculationResult.mk "Flat" "https://example.org/flat" "economy" "flat rate" 500 5 in
  exists e : FareClassEarning.t,
    FareClassRule.fareClassEarnings GeoSampleMore.flat !! "economy" = Some e
    /\ CalculationResult.notes r = FareClassEarning.calculationNotes e
    /\ CalculationResult.qantasPoints r = FareClassEarning.qantasPoints e
    /\ CalculationResult.statusCredits r = FareClassEarning.statusCredits e.
Proof.
  intros r.
  apply (proj2 (fareClass_calculate_iff_applies GeoSampleMore.flat
                  (Segment.mk Sample.SYD Sample.MEL) "economy" eq_refl) r).
  reflexivity.
Defined.

(** A pair of locations that the rule resolved can be rendered. *)
Lemma resolved_pair_renders `{imports : Imports} (this : GeographicalRule.t)
    (segment : Segment.t) (o d : Location.t) :
  GeographicalRule._getOriginAndDestination this segment = (Some o, Some d) ->
  exists ro rd : string,
    GeographicalRule._buildCalculationNotesInner (Some o) = Ok ro
    /\ GeographicalRule._buildCalculationNotesInner (Some d) = Ok rd.
Proof.
  rewrite getOriginAndDestination_cases. intros Hpair.
  assert (exists a b, matches a o /\ matches b d) as (a & b & Ho & Hd).
  { destruct (resolves _ _ _); injection Hpair as Ho Hd;
      apply getOrigin_matches in Ho; apply getDestination_sound in Hd as [Hd _]; eauto. }
  destruct (matches_renders a o Ho) as [ro Hro].
  destruct (matches_renders b d Hd) as [rd Hrd].
  exists ro, rd. split; by apply inner_renders.
Qed.

(** X3.  For a well-formed segment and a category that is not a name every
    object inherits, [GeographicalRule.calculate] returns a result exactly
    when [GeographicalRule.applies] says yes: out of contract it throws. *)
Theorem geographical_calculate_iff_applies `{imports : Imports} (this : GeographicalRule.t)
    (segment : Segment.t) (fareEarnCategory : string) :
  AnyCategory.wellFormed segment ->
  AnyCategory.inherited fareEarnCategory = false ->
  (exists r : CalculationResult.t,
      GeographicalRule.calculate this segment fareEarnCategory = Ok r)
  <-> AnyCategory.geographicalRuleApplies this segment fareEarnCategory = Ok true.
Proof.
  intros _ Hplain.
  pose proof (anyCategory_geographical_value this segment fareEarnCategory) as Hv.
  unfold GeographicalRule.calculate.
  destruct (GeographicalRule._getOriginAndDestination this segment) as [[o|] [d|]] eqn:Hpair.
  - destruct Hv as (e & He & ->). unfold AnyCategory.hasProperty. rewrite Hplain.
    destruct (resolved_pair_renders this segment o d Hpair) as (ro & rd & Hro & Hrd).
    rewrite He. simpl. unfold GeographicalRule._buildCalculationNotes.
    rewrite Hro, Hrd. simpl.
    destruct (e !! fareEarnCategory) as [q|]; simpl.
    + split; [reflexivity | eauto].
    + split; [intros [r [=]] | discriminate].
  - rewrite Hv. split; [intros [r [=]] | discriminate].
  - rewrite Hv. split; [|discriminate]. intros [r Hr].
    destruct (GeographicalRule.destinationEarnings this (Some d)); discriminate.
  - rewrite Hv. split; [intros [r [=]] | discriminate].
Qed.

Lemma geographical_calculate_iff_applies_witness :
  (exists r : CalculationResult.t,
      GeographicalRule.calculate (imports := Sample.imports) GeoSample.oneWay
        (Segment.mk Sample.SYD Sample.LAX) "economy" = Ok r)
  <-> AnyCategory.geographicalRuleApplies (imports := Sample.imports) GeoSample.oneWay
        (Segment.mk Sample.SYD Sample.LAX) "economy" = Ok true.
Proof.
  apply (geographical_calculate_iff_applies (imports := Sample.imports) GeoSample.oneWay
           (Segment.mk Sample.SYD Sample.LAX) "economy").
  - repeat split; reflexivity.
  - reflexivity.
Defined.

(** X4.  [IntraCountryRule.calculate] does not look at the countries: it
    returns a result exactly when the inner distance rule applies, so it
    returns one whenever [IntraCountryRule.applies] says yes, and also for a
    segment that leaves the country when a band takes its distance. *)
Theorem intraCountry_calculate_ignores_country `{imports : Imports}
    (this : IntraCountryRule.t) (segment : Segment.t) (fareEarnCategory : string) :
  ((exists r : CalculationResult.t,
       IntraCountryRule.calculate this segment fareEarnCategory = Ok r)
   <-> DistanceRule.applies (IntraCountryRule.distanceRule this) segment fareEarnCategory
       = Ok true)
  /\ (IntraCountryRule.applies this segment fareEarnCategory = Ok true ->
      exists r : CalculationResult.t,
        IntraCountryRule.calculate this segment fareEarnCategory = Ok r).
Proof.
  assert (Hiff : (exists r : CalculationResult.t,
                     IntraCountryRule.calculate this segment fareEarnCategory = Ok r)
                 <-> DistanceRule.applies (IntraCountryRule.distanceRule this) segment
                       fareEarnCategory = Ok true).
  { unfold IntraCountryRule.calculate, DistanceRule.calculate, DistanceRule.applies.
    destruct (DistanceRule._getDistanceBand _ _) as [b|].
    - destruct (DistanceBand.earnings b !! fareEarnCategory) as [e|] eqn:He; simpl.
      + split; [reflexivity | eauto].
      + split; [intros [r [=]] | discriminate].
    - split; [intros [r [=]] | discriminate]. }
  split; [exact Hiff|].
  intros Happ. apply Hiff. unfold IntraCountryRule.applies in Happ.
  destruct (_ || _); [discriminate | exact Happ].
Qed.

Lemma intraCountry_calculate_ignores_country_witness :
  exists r : CalculationResult.t,
    IntraCountryRule.calculate (imports := Sample.imports)
      (IntraCountryRule.new "Intra Australia" "https://example.org/au" "AU" Sample.bands)
      (Segment.mk Sample.SYD Sample.MEL) "economy" = Ok r.
Proof.
  apply (proj2 (intraCountry_calculate_ignores_country (imports := Sample.imports)
                  (IntraCountryRule.new "Intra Australia" "https://example.org/au" "AU"
                     Sample.bands)
                  (Segment.mk Sample.SYD Sample.MEL) "economy")).
  vm_compute. reflexivity.
Defined.

Example intraCountry_calculate_abroad :
  IntraCountryRule.applies (imports := Sample.imports)
    (IntraCountryRule.new "Intra Australia" "https://example.org/au" "AU" Sample.bands)
    (Segment.mk Sample.SYD Sample.LAX) "economy" = Ok false
  /\ IntraCountryRule.calculate (imports := Sample.imports)
       (IntraCountryRule.new "Intra Australia" "https://example.org/au" "AU" Sample.bands)
       (Segment.mk Sample.SYD Sample.LAX) "economy"
     = Ok (CalculationResult.mk "Intra Australia" "https://example.org/au" "economy"
             "Distance calculated to 7488 miles, using band 1200 and over" 800 10).
Proof. split; vm_compute; reflexivity. Qed.

(** ** What a result says about its rule *)

(** X5.  Every result carries the name and the URL of the rule that made it
    and the category it was asked for; for an intra-country rule built by its
    constructor these are the name and the URL given to the constructor. *)
Theorem calculate_result_identity `{imports : Imports} (segment : Segment.t)
    (fareEarnCategory : string) (r : CalculationResult.t) :
  (forall this : DistanceRule.t,
      DistanceRule.calculate this segment fareEarnCategory = Ok r ->
      CalculationResult.rule r = Rule.name (DistanceRule.super this)
      /\ CalculationResult.ruleUrl r = Rule.ruleUrl (DistanceRule.super this)
      /\ CalculationResult.fareEarnCategory r = fareEarnCategory)
  /\ (forall this : FareClassRule.t,
        FareClassRule.calculate this segment fareEarnCategory = Ok r ->
        CalculationResult.rule r = Rule.name (FareClassRule.super this)
        /\ CalculationResult.ruleUrl r = Rule.ruleUrl (FareClassRule.super this)
        /\ CalculationResult.fareEarnCategory r = fareEarnCategory)
  /\ (forall this : GeographicalRule.t,
        GeographicalRule.calculate this segment fareEarnCategory = Ok r ->
        CalculationResult.rule r = Rule.name (GeographicalRule.super this)
        /\ CalculationResult.ruleUrl r = Rule.ruleUrl (GeographicalRule.super this)
        /\ CalculationResult.fareEarnCategory r = fareEarnCategory)
  /\ (forall (name ruleUrl country : string) (distanceBands : list DistanceBand.t),
        IntraCountryRule.calculate
          (IntraCountryRule.new name ruleUrl country distanceBands) segment fareEarnCategory
        = Ok r ->
        CalculationResult.rule r = name
        /\ CalculationResult.ruleUrl r = ruleUrl
        /\ CalculationResult.fareEarnCategory r = fareEarnCategory).
Proof.
  assert (Hd : forall this : DistanceRule.t,
      DistanceRule.calculate this segment fareEarnCategory = Ok r ->
      CalculationResult.rule r = Rule.name (DistanceRule.super this)
      /\ CalculationResult.ruleUrl r = Rule.ruleUrl (DistanceRule.super this)
      /\ CalculationResult.fareEarnCategory r = fareEarnCategory).
  { intros this. unfold DistanceRule.calculate.
    destruct (DistanceRule._getDistanceBand this _) as [b|]; [|discriminate].
    destruct (DistanceBand.earnings b !! fareEarnCategory) as [e|]; [|discriminate].
    simpl. by intros [= <-]. }
  split; [exact Hd|]. split; [|split].
  - intros this. unfold FareClassRule.calculate.
    destruct (FareClassRule.fareClassEarnings this !! fareEarnCategory) as [e|]; [|discriminate].
    simpl. by intros [= <-].
  - intros this. unfold GeographicalRule.calculate.
    destruct (GeographicalRule._getOriginAndDestination this segment) as [o d].
    destruct (GeographicalRule.destinationEarnings this d) as [earnings|]; [|discriminate].
    simpl. destruct (GeographicalRule._buildCalculationNotes o d) as [notes|]; [|discriminate].
    simpl. destruct earnings as [table|]; [|discriminate].
    simpl. destruct (table !! fareEarnCategory) as [e|]; [|discriminate].
    simpl. by intros [= <-].
  - intros name ruleUrl country distanceBands Hr.
    apply (Hd (DistanceRule.new (Rule.new name ruleUrl) distanceBands) Hr).
Qed.

Lemma calculate_result_identity_witness :
  let r := CalculationResult.mk "Intra Australia" "https://example.org/au" "economy"
             "Distance calculated to 439 miles, using band 0 - 600" 800 10 in
  CalculationResult.rule r = "Intra Australia"
  /\ CalculationResult.ruleUrl r = "https://example.org/au"
  /\ CalculationResult.fareEarnCategory r = "economy".
Proof.
  intros r.
  apply (proj2 (proj2 (proj2 (calculate_result_identity (imports := Sample.imports)
                                (Segment.mk Sample.SYD Sample.MEL) "economy" r)))
           "Intra Australia" "https://example.org/au" "AU" Sample.bands).
  vm_compute. reflexivity.
Defined.

(** ** Direction of a segment for the rules by distance *)

(** X6.  When the distance between two airports does not depend on their
    order, the rules by distance do not depend on the direction of the
    segment: [applies] and [calculate] of a distance rule and of an
    intra-country rule give the same for a segment and for its reverse. *)
Theorem distance_rules_direction `{imports : Imports} (this : DistanceRule.t)
    (inner : IntraCountryRule.t) (segment : Segment.t) (fareEarnCategory : string) :
  (forall a b : Airport.t, calcDistance a b = calcDistance b a) ->
  DistanceRule.applies this segment fareEarnCategory
  = DistanceRule.applies this (reverse segment) fareEarnCategory
  /\ DistanceRule.calculate this segment fareEarnCategory
     = DistanceRule.calculate this (reverse segment) fareEarnCategory
  /\ IntraCountryRule.applies inner segment fareEarnCategory
     = IntraCountryRule.applies inner (reverse segment) fareEarnCategory
  /\ IntraCountryRule.calculate inner segment fareEarnCategory
     = IntraCountryRule.calculate inner (reverse segment) fareEarnCategory.
Proof.
  intros Hsym.
  unfold IntraCountryRule.applies, IntraCountryRule.calculate,
    DistanceRule.applies, DistanceRule.calculate, reverse. simpl.
  rewrite (Hsym (Segment.toAirport segment) (Segment.fromAirport segment)).
  repeat split; try reflexivity.
  by rewrite orb_comm.
Qed.

Lemma distance_rules_direction_witness :
  let flat : Imports :=
    {| calcDistance := fun _ _ => 439;
       isInRegion := fun _ _ => false;
       REGION_DISPLAY := ∅ |} in
  let inner := IntraCountryRule.new "Intra Australia" "https://example.org/au" "AU" Sample.bands in
  let segment := Segment.mk Sample.SYD Sample.MEL in
  DistanceRule.applies (imports := flat) Sample.distanceRule segment "economy"
  = DistanceRule.applies (imports := flat) Sample.distanceRule (reverse segment) "economy"
  /\ DistanceRule.calculate (imports := flat) Sample.distanceRule segment "economy"
     = DistanceRule.calculate (imports := flat) Sample.distanceRule (reverse segment) "economy"
  /\ IntraCountryRule.applies (imports := flat) inner segment "economy"
     = IntraCountryRule.applies (imports := flat) inner (reverse segment) "economy"
  /\ IntraCountryRule.calculate (imports := flat) inner segment "economy"
     = IntraCountryRule.calculate (imports := flat) inner (reverse segment) "economy".
Proof.
  intros flat inner segment.
  apply (distance_rules_direction (imports := flat) Sample.distanceRule inner segment "economy").
  reflexivity.
Defined.

(** ** A contiguous table of bands *)

Lemma contiguousFrom_lower (lo : Z) (bands : list DistanceBand.t) (b : DistanceBand.t) :
  contiguousFrom lo bands = true -> b ∈ bands -> lo <= DistanceBand.minDistance b.
Proof.
  revert lo. induction bands as [|a bands IH]; intros lo; simpl; [discriminate|].
  intros [Hmin Hrest]%andb_true_iff Hb. apply Z.eqb_eq in Hmin.
  apply elem_of_cons in Hb as [-> | Hb]; [lia|].
  destruct (DistanceBand.maxDistance a) as [m|].
  - apply andb_true_iff in Hrest as [Hlt%Z.ltb_lt Hrest].
    specialize (IH m Hrest Hb). lia.
  - apply bool_decide_eq_true in Hrest. subst bands. inversion Hb.
Qed.

(** X7.  In a contiguous table that starts at [lo], a distance of at most
    [lo] falls in no band, and every distance above [lo] falls in exactly one
    band, which is the one [_getDistanceBand] returns. *)
Theorem getDistanceBand_contiguous (this : DistanceRule.t) (lo d : Z) :
  contiguousFrom lo (DistanceRule.distanceBands this) = true ->
  (d <= lo -> DistanceRule._getDistanceBand this d = None)
  /\ (lo < d ->
      exists (i : nat) (b : DistanceBand.t),
        DistanceRule.distanceBands this !! i = Some b
        /\ DistanceRule._getDistanceBand this d = Some b
        /\ forall (j : nat) (b' : DistanceBand.t),
             DistanceRule.distanceBands this !! j = Some b' -> inBand d b' -> j = i).
Proof.
  unfold DistanceRule._getDistanceBand.
  generalize (DistanceRule.distanceBands this) as bands. clear this.
  intros bands Hc. split.
  - intros Hd. apply find_None_all. intros b Hb. apply bandTest_not_inBand.
    pose proof (contiguousFrom_lower lo bands b Hc Hb). intros [Hlo _]. lia.
  - revert lo Hc. induction bands as [|a bands IH]; intros lo Hc Hd; [discriminate|].
    simpl in Hc. apply andb_true_iff in Hc as [Hmin%Z.eqb_eq Hrest].
    simpl. destruct (DistanceRule.bandTest d a) eqn:Ha.
    + exists 0%nat, a. repeat split; [reflexivity.. |].
      intros [|j] b' Hj Hin; [reflexivity | exfalso]. simpl in Hj.
      apply bandTest_inBand in Ha as [_ Hhi].
      destruct (DistanceBand.maxDistance a) as [m|].
      * apply andb_true_iff in Hrest as [_ Hrest].
        apply list_elem_of_lookup_2 in Hj.
        pose proof (contiguousFrom_lower m bands b' Hrest Hj).
        specialize (Hhi m eq_refl). destruct Hin as [Hlo _]. lia.
      * apply bool_decide_eq_true in Hrest. subst bands. discriminate.
    + apply bandTest_not_inBand in Ha.
      destruct (DistanceBand.maxDistance a) as [m|] eqn:Hm.
      * apply andb_true_iff in Hrest as [Hlt%Z.ltb_lt Hrest].
        assert (Hdm : m < d).
        { destruct (Z_lt_le_dec m d) as [|Hle]; [assumption|]. exfalso. apply Ha.
          split; [lia|]. intros m' Hm'. rewrite Hm in Hm'. injection Hm' as <-. lia. }
        destruct (IH m Hrest Hdm) as (i & b & Hi & Hfind & Huniq).
        exists (S i), b. repeat split; [exact Hi | exact Hfind |].
        intros [|j] b' Hj Hin; simpl in Hj.
        -- injection Hj as <-. contradiction.
        -- f_equal. by apply (Huniq j b').
      * exfalso. apply Ha. split; [lia|]. intros m' Hm'. rewrite Hm in Hm'. discriminate.
Qed.

Lemma getDistanceBand_contiguous_witness :
  (439 <= 0 -> DistanceRule._getDistanceBand Sample.distanceRule 439 = None)
  /\ (0 < 439 ->
      exists (i : nat) (b : DistanceBand.t),
        DistanceRule.distanceBands Sample.distanceRule !! i = Some b
        /\ DistanceRule._getDistanceBand Sample.distanceRule 439 = Some b
        /\ forall (j : nat) (b' : DistanceBand.t),
             DistanceRule.distanceBands Sample.distanceRule !! j = Some b' ->
             inBand 439 b' -> j = i).
Proof.
  apply (getDistanceBand_contiguous Sample.distanceRule 0 439). reflexivity.
Defined.

(** ** How an airport is resolved *)

Lemma firstRegion_first `{imports : Imports} (code : string) (regions : list string)
    (l : Location.t) :
  GeographicalRule.firstRegion code regions = Some l <->
  Location.type l = "region"
  /\ exists i : nat,
       regions !! i = Some (Location.value l)
       /\ isInRegion code (Location.value l) = true
       /\ forall (j : nat) (r : string),
            (j < i)%nat -> regions !! j = Some r -> isInRegion code r = false.
Proof.
  unfold GeographicalRule.firstRegion.
  destruct (List.find (isInRegion code) regions) as [r|] eqn:Hfind.
  - apply find_Some_first in Hfind. split.
    + intros [= <-]. simpl. split; [reflexivity | exact Hfind].
    + intros [Hty (i & Hi & Hin & Hfirst)]. destruct l as [ty v]. simpl in *. subst ty.
      f_equal. f_equal. destruct Hfind as (i' & Hi' & Hin' & Hfirst').
      destruct (Nat.lt_trichotomy i i') as [Hlt | [-> | Hlt]].
      * rewrite (Hfirst' i v Hlt Hi) in Hin. discriminate.
      * congruence.
      * rewrite (Hfirst i' r Hlt Hi') in Hin'. discriminate.
  - split; [discriminate|]. intros [_ (i & Hi & Hin & _)].
    rewrite find_None_all in Hfind.
    rewrite (Hfind (Location.value l)) in Hin; [discriminate|].
    by apply list_elem_of_lookup_2 in Hi.
Qed.

Lemma firstRegion_None `{imports : Imports} (code : string) (regions : list string) :
  GeographicalRule.firstRegion code regions = None <->
  forall r : string, r ∈ regions -> isInRegion code r = false.
Proof.
  unfold GeographicalRule.firstRegion. rewrite <- find_None_all.
  by destruct (List.find (isInRegion code) regions).
Qed.

(** X8.  [_getOrigin] looks at the city first, then at the country, then at
    the regions in the order of the set: a configured city that holds the
    lower-cased city of the airport wins whatever the country and the regions
    say; a region is returned only when neither the city nor the country is
    configured to match, and it is the first region of the set that contains
    the airport; and the result is [null] exactly when nothing matches. *)
Theorem getOrigin_priority `{imports : Imports} (this : GeographicalRule.t)
    (airport : Airport.t) :
  let origin := RuleConfig.origin (GeographicalRule.ruleConfig this) in
  let city := toLowerCase (Airport.city airport) in
  let country := toLowerCase (Airport.country airport) in
  let code := toLowerCase (Airport.iata airport) in
  let noCity := forall cs : gset string, Origin.city origin = Some cs -> city ∉ cs in
  let noCountry := forall ks : gset string, Origin.country origin = Some ks -> country ∉ ks in
  (forall cs : gset string,
      Origin.city origin = Some cs -> city ∈ cs ->
      GeographicalRule._getOrigin this airport = Some (Location.mk "city" city))
  /\ (forall ks : gset string,
        Origin.country origin = Some ks -> country ∈ ks -> noCity ->
        GeographicalRule._getOrigin this airport = Some (Location.mk "country" country))
  /\ (forall l : Location.t,
        Location.type l = "region" ->
        GeographicalRule._getOrigin this airport = Some l <->
        noCity /\ noCountry
        /\ exists (rs : list string) (i : nat),
             Origin.region origin = Some rs
             /\ rs !! i = Some (Location.value l)
             /\ isInRegion code (Location.value l) = true
             /\ forall (j : nat) (r : string),
                  (j < i)%nat -> rs !! j = Some r -> isInRegion code r = false)
  /\ (GeographicalRule._getOrigin this airport = None <->
      noCity /\ noCountry
      /\ forall (rs : list string) (r : string),
           Origin.region origin = Some rs -> r ∈ rs -> isInRegion code r = false).
Proof.
  intros origin city country code noCity noCountry.
  unfold GeographicalRule._getOrigin. fold origin city country code.
  assert (Hc : match Origin.city origin with
               | Some cs => if bool_decide (city ∈ cs)
                            then Some (Location.mk "city" city) else None
               | None => None
               end = None <-> noCity).
  { unfold noCity. destruct (Origin.city origin) as [cs|]; [|by split].
    case_bool_decide as Hin; split; try done.
    - intros H. by destruct (H cs eq_refl).
    - by intros _ ? [= <-]. }
  assert (Hk : match Origin.country origin with
               | Some ks => if bool_decide (country ∈ ks)
                            then Some (Location.mk "country" country) else None
               | None => None
               end = None <-> noCountry).
  { unfold noCountry. destruct (Origin.country origin) as [ks|]; [|by split].
    case_bool_decide as Hin; split; try done.
    - intros H. by destruct (H ks eq_refl).
    - by intros _ ? [= <-]. }
  split; [|split; [|split]].
  - intros cs Hcs Hin. rewrite Hcs, (bool_decide_eq_true_2 _ Hin).
    by rewrite !union_Some_l.
  - intros ks Hks Hin Hno. apply Hc in Hno. rewrite Hno, Hks, (bool_decide_eq_true_2 _ Hin).
    by rewrite (left_id None (∪)), union_Some_l.
  - intros l Hty. rewrite union_Some, union_Some, union_None, Hc, Hk. split.
    + intros [[H | [_ H]] | [[Hnc Hnk] H]].
      * destruct (Origin.city origin) as [cs|]; [|discriminate].
        case_bool_decide; [|discriminate]. injection H as <-. discriminate.
      * destruct (Origin.country origin) as [ks|]; [|discriminate].
        case_bool_decide; [|discriminate]. injection H as <-. discriminate.
      * destruct (Origin.region origin) as [rs|]; [|discriminate].
        apply firstRegion_first in H as [_ (i & Hi)]. repeat split; eauto.
    + intros (Hnc & Hnk & rs & i & Hrs & Hi). right. split; [by split|].
      rewrite Hrs. apply firstRegion_first. eauto.
  - rewrite union_None, union_None, Hc, Hk. split.
    + intros [[Hnc Hnk] H]. repeat split; try assumption.
      intros rs r Hrs Hr. rewrite Hrs in H. by apply (proj1 (firstRegion_None code rs) H).
    + intros (Hnc & Hnk & H). repeat split; try assumption.
      destruct (Origin.region origin) as [rs|] eqn:Hrs; [|reflexivity].
      apply firstRegion_None. intros r Hr. by apply (H rs r).
Qed.

Lemma getOrigin_priority_witness :
  GeographicalRule._getOrigin (imports := Sample.imports) GeoSample.bothWays Sample.SYD
  = Some (Location.mk "city" (toLowerCase (Airport.city Sample.SYD))).
Proof.
  apply (proj1 (getOrigin_priority (imports := Sample.imports) GeoSample.bothWays Sample.SYD)
           {[ "sydney"; "los angeles" ]}).
  - reflexivity.
  - apply elem_of_union. left. apply elem_of_singleton. reflexivity.
Defined.

(** X9.  [_getDestination] follows the same order on the destination tables:
    a city table that has the lower-cased city of the airport as a key wins;
    a region is returned only when neither the city nor the country table
    matches, and it is the first key of the region table, in the order of
    [Object.keys], that contains the airport; the result is [null] exactly
    when nothing matches; and whatever is returned is a key of the table of
    its type, so that the earnings read for it are never [undefined]. *)
Theorem getDestination_priority `{imports : Imports} (this : GeographicalRule.t)
    (airport : Airport.t) :
  let destination := RuleConfig.destination (GeographicalRule.ruleConfig this) in
  let city := toLowerCase (Airport.city airport) in
  let country := toLowerCase (Airport.country airport) in
  let code := toLowerCase (Airport.iata airport) in
  let noCity :=
    forall table : JsObject.t Earnings,
      Destination.city destination = Some table -> JsObject.get table city = None in
  let noCountry :=
    forall table : JsObject.t Earnings,
      Destination.country destination = Some table -> JsObject.get table country = None in
  (forall table : JsObject.t Earnings,
      Destination.city destination = Some table -> is_Some (JsObject.get table city) ->
      GeographicalRule._getDestination this airport = Some (Location.mk "city" city))
  /\ (forall table : JsObject.t Earnings,
        Destination.country destination = Some table ->
        is_Some (JsObject.get table country) -> noCity ->
        GeographicalRule._getDestination this airport = Some (Location.mk "country" country))
  /\ (forall l : Location.t,
        Location.type l = "region" ->
        GeographicalRule._getDestination this airport = Some l <->
        noCity /\ noCountry
        /\ exists (table : JsObject.t Earnings) (i : nat),
             Destination.region destination = Some table
             /\ JsObject.keys table !! i = Some (Location.value l)
             /\ isInRegion code (Location.value l) = true
             /\ forall (j : nat) (r : string),
                  (j < i)%nat -> JsObject.keys table !! j = Some r ->
                  isInRegion code r = false)
  /\ (GeographicalRule._getDestination this airport = None <->
      noCity /\ noCountry
      /\ forall (table : JsObject.t Earnings) (r : string),
           Destination.region destination = Some table -> r ∈ JsObject.keys table ->
           isInRegion code r = false)
  /\ (forall l : Location.t,
        GeographicalRule._getDestination this airport = Some l ->
        exists (table : JsObject.t Earnings) (e : Earnings),
          Destination.get destination (Location.type l) = Some table
          /\ JsObject.get table (Location.value l) = Some e).
Proof.
  intros destination city country code noCity noCountry.
  assert (Hsound : forall l : Location.t,
             GeographicalRule._getDestination this airport = Some l ->
             exists (table : JsObject.t Earnings) (e : Earnings),
               Destination.get destination (Location.type l) = Some table
               /\ JsObject.get table (Location.value l) = Some e).
  { intros l Hl. by apply getDestination_sound in Hl as [_ Hl]. }
  unfold GeographicalRule._getDestination, JsObject.has.
  fold destination city country code.
  assert (Hc : match Destination.city destination with
               | Some cities => if bool_decide (is_Some (JsObject.get cities city))
                                then Some (Location.mk "city" city) else None
               | None => None
               end = None <-> noCity).
  { unfold noCity. destruct (Destination.city destination) as [table|]; [|by split].
    case_bool_decide as Hin; split; try done.
    - intros H. rewrite (H table eq_refl) in Hin. by destruct Hin.
    - intros _ ? [= <-]. by apply eq_None_not_Some. }
  assert (Hk : match Destination.country destination with
               | Some countries => if bool_decide (is_Some (JsObject.get countries country))
                                   then Some (Location.mk "country" country) else None
               | None => None
               end = None <-> noCountry).
  { unfold noCountry. destruct (Destination.country destination) as [table|]; [|by split].
    case_bool_decide as Hin; split; try done.
    - intros H. rewrite (H table eq_refl) in Hin. by destruct Hin.
    - intros _ ? [= <-]. by apply eq_None_not_Some. }
  split; [|split; [|split; [|split]]].
  - intros table Htable Hin. rewrite Htable, (bool_decide_eq_true_2 _ Hin).
    by rewrite !union_Some_l.
  - intros table Htable Hin Hno. apply Hc in Hno.
    rewrite Hno, Htable, (bool_decide_eq_true_2 _ Hin).
    by rewrite (left_id None (∪)), union_Some_l.
  - intros l Hty. rewrite union_Some, union_Some, union_None, Hc, Hk. split.
    + intros [[H | [_ H]] | [[Hnc Hnk] H]].
      * destruct (Destination.city destination) as [table|]; [|discriminate].
        case_bool_decide; [|discriminate]. injection H as <-. discriminate.
      * destruct (Destination.country destination) as [table|]; [|discriminate].
        case_bool_decide; [|discriminate]. injection H as <-. discriminate.
      * destruct (Destination.region destination) as [table|]; [|discriminate].
        apply firstRegion_first in H as [_ (i & Hi)]. repeat split; eauto.
    + intros (Hnc & Hnk & table & i & Htable & Hi). right. split; [by split|].
      rewrite Htable. apply firstRegion_first. eauto.
  - rewrite union_None, union_None, Hc, Hk. split.
    + intros [[Hnc Hnk] H]. repeat split; try assumption.
      intros table r Htable Hr. rewrite Htable in H.
      by apply (proj1 (firstRegion_None code (JsObject.keys table)) H).
    + intros (Hnc & Hnk & H). repeat split; try assumption.
      destruct (Destination.region destination) as [table|] eqn:Htable; [|reflexivity].
      apply firstRegion_None. intros r Hr. by apply (H table r).
  - exact Hsound.
Qed.

Lemma getDestination_priority_witness :
  GeographicalRule._getDestination (imports := Sample.imports) GeoSample.bothWays Sample.LAX
  = Some (Location.mk "city" (toLowerCase (Airport.city Sample.LAX))).
Proof.
  apply (proj1 (getDestination_priority (imports := Sample.imports) GeoSample.bothWays
                  Sample.LAX)
           [("sydney", Sample.economy); ("los angeles", Sample.business)]).
  - reflexivity.
  - exists Sample.business. reflexivity.
Defined.

(** ** Letter case of the airport fields *)

Lemma getOrigin_sameLowerCase `{imports : Imports} (this : GeographicalRule.t)
    (a b : Airport.t) :
  sameLowerCase a b ->
  GeographicalRule._getOrigin this a = GeographicalRule._getOrigin this b.
Proof.
  intros (Hi & Hc & Hk). unfold GeographicalRule._getOrigin. by rewrite Hi, Hc, Hk.
Qed.

Lemma getDestination_sameLowerCase `{imports : Imports} (this : GeographicalRule.t)
    (a b : Airport.t) :
  sameLowerCase a b ->
  GeographicalRule._getDestination this a = GeographicalRule._getDestination this b.
Proof.
  intros (Hi & Hc & Hk). unfold GeographicalRule._getDestination. by rewrite Hi, Hc, Hk.
Qed.

(** X10.  A geographical rule reads the code, the city and the country of an
    airport in lower case only: two segments whose airports differ at most in
    the case of these fields get the same answer from [applies] and the same
    result or the same exception from [calculate]. *)
Theorem geographical_case_insensitive `{imports : Imports} (this : GeographicalRule.t)
    (segment segment' : Segment.t) (fareEarnCategory : string) :
  sameLowerCase (Segment.fromAirport segment) (Segment.fromAirport segment') ->
  sameLowerCase (Segment.toAirport segment) (Segment.toAirport segment') ->
  GeographicalRule.applies this segment fareEarnCategory
  = GeographicalRule.applies this segment' fareEarnCategory
  /\ GeographicalRule.calculate this segment fareEarnCategory
     = GeographicalRule.calculate this segment' fareEarnCategory.
Proof.
  intros Hfrom Hto.
  assert (Hpair : GeographicalRule._getOriginAndDestination this segment
                  = GeographicalRule._getOriginAndDestination this segment').
  { unfold GeographicalRule._getOriginAndDestination.
    by rewrite (getOrigin_sameLowerCase this _ _ Hfrom),
      (getOrigin_sameLowerCase this _ _ Hto),
      (getDestination_sameLowerCase this _ _ Hfrom),
      (getDestination_sameLowerCase this _ _ Hto). }
  unfold GeographicalRule.applies, GeographicalRule.calculate. by rewrite Hpair.
Qed.

Lemma geographical_case_insensitive_witness :
  let written := Segment.mk Sample.SYD Sample.LAX in
  let shouted :=
    Segment.mk (Airport.mk "syd" "SYDNEY" "au") (Airport.mk "Lax" "LOS ANGELES" "Us") in
  GeographicalRule.applies (imports := Sample.imports) GeoSample.oneWay written "economy"
  = GeographicalRule.applies (imports := Sample.imports) GeoSample.oneWay shouted "economy"
  /\ GeographicalRule.calculate (imports := Sample.imports) GeoSample.oneWay written "economy"
     = GeographicalRule.calculate (imports := Sample.imports) GeoSample.oneWay shouted "economy".
Proof.
  intros written shouted.
  apply (geographical_case_insensitive (imports := Sample.imports) GeoSample.oneWay
           written shouted "economy"); repeat split; reflexivity.
Defined.

(** ** The tokens of a string are its words *)

Example words_samples :
  words "  10   5	7 " = ["10"; "5"; "7"] /\ words "   " = [] /\ words "" = []
  /\ words "a,b c" = ["a,b"; "c"].
Proof. repeat split; reflexivity. Qed.

Lemma splitWhere_not_nil (p : ascii -> bool) (s : string) : splitWhere p s <> [].
Proof.
  destruct s as [|c s]; simpl; [done|].
  destruct (p c); [done|]. by destruct (splitWhere p s).
Qed.

Lemma space_is_whiteSpace (c : ascii) : isWhiteSpace c = false -> c <> " "%char.
Proof. intros Hc ->. discriminate. Qed.

Lemma trimEnd_cons_word (c : ascii) (s : string) :
  isWhiteSpace c = false -> trimEnd (String c s) = String c (trimEnd s).
Proof. intros Hc. simpl. rewrite Hc. by destruct (trimEnd s). Qed.

Lemma collapseFrom_space (in_run : bool) (c : ascii) (s : string) :
  isWhiteSpace c = true ->
  collapseFrom in_run (String c s)
  = if in_run then collapseFrom true s else String " " (collapseFrom true s).
Proof. intros Hc. simpl. by rewrite Hc. Qed.

Lemma collapseFrom_word (in_run : bool) (c : ascii) (s : string) :
  isWhiteSpace c = false ->
  collapseFrom in_run (String c s) = String c (collapseFrom false s).
Proof. intros Hc. simpl. by rewrite Hc. Qed.

Lemma split_at_space (s : string) :
  split " " (String " " s) = EmptyString :: split " " s.
Proof. reflexivity. Qed.

Lemma split_in_word (c : ascii) (s : string) :
  isWhiteSpace c = false ->
  split " " (String c s)
  = match split " " s with
    | t :: ts => String c t :: ts
    | [] => [String c EmptyString]
    end.
Proof.
  intros Hc. simpl. by rewrite (bool_decide_eq_false_2 _ (space_is_whiteSpace c Hc)).
Qed.

(** Collapsing and splitting a string trimmed at its end gives the first
    piece of the string and then its words, or its words alone when the
    collapse starts inside a run of white space. *)
Lemma split_collapse_trimEnd (s : string) :
  split " " (collapseFrom false (trimEnd s)) = headThenWords (splitWhere isWhiteSpace s)
  /\ split " " (collapseFrom true (trimEnd s))
     = match trimEnd s with
       | EmptyString => [EmptyString]
       | String _ _ => List.filter nonEmpty (splitWhere isWhiteSpace s)
       end.
Proof.
  induction s as [|c s [IHf IHt]]; [by split|].
  pose proof (splitWhere_not_nil isWhiteSpace s) as Hne.
  destruct (splitWhere isWhiteSpace s) as [|h T] eqn:HW; [done|]. clear Hne.
  cbn [splitWhere]. rewrite HW.
  destruct (trimEnd s) as [|d y] eqn:Hend.
  - (* nothing but white space after [c] *)
    simpl in IHf. injection IHf as Hh HT. subst h.
    cbn [trimEnd]. rewrite Hend.
    destruct (isWhiteSpace c) eqn:Hc.
    + simpl. rewrite <- HT. by split.
    + rewrite !(collapseFrom_word _ c _ Hc), (split_in_word c _ Hc).
      simpl. rewrite <- HT. by split.
  - cbn [trimEnd]. rewrite Hend.
    destruct (isWhiteSpace c) eqn:Hc.
    + rewrite !(collapseFrom_space _ c _ Hc), split_at_space, IHt. by split.
    + rewrite !(collapseFrom_word _ c _ Hc), (split_in_word c _ Hc), IHf. by split.
Qed.

Lemma words_trimStart (s : string) : words (trimStart s) = words s.
Proof.
  unfold words. induction s as [|c s IH]; [reflexivity|].
  cbn [trimStart splitWhere]. destruct (isWhiteSpace c) eqn:Hc.
  - by rewrite IH.
  - cbn [splitWhere]. by rewrite Hc.
Qed.

(** The tokens of the credits string, by its words. *)
Lemma creditsTokens_match_words (s : string) :
  creditsTokens s
  = match words s with
    | [] => [EmptyString]
    | w :: ws => w :: ws
    end.
Proof.
  unfold creditsTokens, collapseWhiteSpace, trim.
  rewrite (proj1 (split_collapse_trimEnd (trimStart s))).
  rewrite <- (words_trimStart s). unfold words.
  destruct (trimStart_spec s) as (_ & _ & _ & Hhead).
  destruct (trimStart s) as [|c u]; [reflexivity|].
  cbn [splitWhere]. rewrite Hhead.
  pose proof (splitWhere_not_nil isWhiteSpace u) as Hne.
  by destruct (splitWhere isWhiteSpace u).
Qed.

(** X11.  The tokens of the credits string are its words, the maximal runs
    of characters that are not white space, in their order; a string without
    any word gives the single empty token. *)
Theorem creditsTokens_words (qantasCreditsString : string) :
  creditsTokens qantasCreditsString
  = match words qantasCreditsString with
    | [] => [EmptyString]
    | w :: ws => w :: ws
    end.
Proof.
  unfold creditsTokens, collapseWhiteSpace, trim.
  rewrite (proj1 (split_collapse_trimEnd (trimStart qantasCreditsString))).
  rewrite <- (words_trimStart qantasCreditsString). unfold words.
  destruct (trimStart_spec qantasCreditsString) as (_ & _ & _ & Hhead).
  destruct (trimStart qantasCreditsString) as [|c u]; [reflexivity|].
  cbn [splitWhere]. rewrite Hhead.
  pose proof (splitWhere_not_nil isWhiteSpace u) as Hne.
  by destruct (splitWhere isWhiteSpace u).
Qed.

(** ** Points tokens and credits tokens *)

Lemma split_removeAll_comma (s : string) :
  split " " (removeAll "," s) = map (removeAll ",") (split " " s).
Proof.
  induction s as [|c s IH]; [reflexivity|].
  pose proof (split_not_nil " " s) as Hne.
  cbn [removeAll split]. case_bool_decide as Hcomma.
  - subst c. rewrite (bool_decide_eq_false_2 (","%char = " "%char)) by discriminate.
    rewrite IH. destruct (split " " s) as [|t ts]; [done|].
    cbn [map removeAll]. by rewrite (bool_decide_eq_true_2 (","%char = ","%char) eq_refl).
  - cbn [split]. case_bool_decide as Hspace.
    + by rewrite IH.
    + rewrite IH. destruct (split " " s) as [|t ts]; [done|].
      cbn [map removeAll]. by rewrite (bool_decide_eq_false_2 _ Hcomma).
Qed.

(** The tokens of the points string, by the tokens of the same string read
    as credits. *)
Lemma pointsTokens_map_credits (s : string) :
  commasInsideWords false false (trim s) = true ->
  pointsTokens s = map (removeAll ",") (creditsTokens s).
Proof.
  intros Hcommas. unfold pointsTokens, creditsTokens, collapseWhiteSpace.
  by rewrite (collapse_removeAll_comma false false _ Hcommas), split_removeAll_comma.
Qed.

(** X12.  When no comma of the trimmed string touches white space, the
    tokens of a string read as points are its tokens read as credits with
    the commas taken out of each, so they are its words without their
    commas. *)
Theorem pointsTokens_creditsTokens (s : string) :
  commasInsideWords false false (trim s) = true ->
  pointsTokens s = map (removeAll ",") (creditsTokens s)
  /\ pointsTokens s
     = match words s with
       | [] => [EmptyString]
       | w :: ws => map (removeAll ",") (w :: ws)
       end.
Proof.
  intros Hcommas.
  assert (Hmap : pointsTokens s = map (removeAll ",") (creditsTokens s)).
  { unfold pointsTokens, creditsTokens, collapseWhiteSpace.
    by rewrite (collapse_removeAll_comma false false _ Hcommas), split_removeAll_comma. }
  split; [exact Hmap|]. rewrite Hmap, creditsTokens_match_words.
  by destruct (words s).
Qed.

Lemma pointsTokens_creditsTokens_witness :
  pointsTokens " 1,000   2,500 " = map (removeAll ",") (creditsTokens " 1,000   2,500 ")
  /\ pointsTokens " 1,000   2,500 "
     = match words " 1,000   2,500 " with
       | [] => [EmptyString]
       | w :: ws => map (removeAll ",") (w :: ws)
       end.
Proof. apply (pointsTokens_creditsTokens " 1,000   2,500 "). reflexivity. Defined.

(** ** The rates, position by position *)

Lemma removeAll_withoutChar (c : ascii) (s : string) : removeAll c s = withoutChar c s.
Proof.
  unfold withoutChar. induction s as [|d s IH]; [reflexivity|].
  cbn [removeAll String.list_ascii_of_string List.filter].
  destruct (Ascii.eqb_spec d c) as [-> | Hne].
  - by rewrite (bool_decide_eq_true_2 (c = c) eq_refl).
  - rewrite (bool_decide_eq_false_2 _ Hne). cbn [negb String.string_of_list_ascii].
    by rewrite IH.
Qed.

Example parseEarningRates_runs_of_spaces :
  parseEarningRates "1000   500" "10	 5" ["Y"; "J"]
  = {[ "Y" := QantasEarnings.new 1000 10; "J" := QantasEarnings.new 500 5 ]}
  /\ parseEarningRates "  1,000 500  " " 10 5 " ["Y"; "J"]
     = {[ "Y" := QantasEarnings.new 1000 10; "J" := QantasEarnings.new 500 5 ]}
  /\ parseEarningRates "1,000 500" "1,0 5" ["Y"; "J"]
     = {[ "Y" := QantasEarnings.new 1000 1; "J" := QantasEarnings.new 500 5 ]}.
Proof. repeat split; vm_compute; reflexivity. Qed.

(** C8.  [parseEarningRates] trims each string, collapses its runs of white
    space and splits it at the spaces, so that the tokens of the credits
    string are its words, the maximal runs of characters that are not white
    space (one empty token for a string without a word).  The commas are
    taken out of the points string only, before the collapse: no token of
    the points string holds a comma, and when no comma touches white space,
    as for commas that separate thousands, the tokens of the points string
    are its words without their commas, and taking the commas out after the
    collapse gives the same tokens.  The record of the label at position
    [i] (its last position, for a label that occurs more than once) holds
    the numbers read from token [i] of each list, stated for numbers of at
    most 2^53 in magnitude, which are held exactly.  On the example of the
    specification, [Y] gets 1000 points and 10 credits and [J] gets 500
    points and 5 credits. *)
Theorem parseEarningRates_positional (qantasPointsString qantasCreditsString : string)
    (fareClasses : list string) :
  let points := pointsTokens qantasPointsString in
  let credits := creditsTokens qantasCreditsString in
  let retval := parseEarningRates qantasPointsString qantasCreditsString fareClasses in
  credits = match words qantasCreditsString with
            | [] => [EmptyString]
            | w :: ws => w :: ws
            end
  /\ (commasInsideWords false false (trim qantasPointsString) = true ->
      points = match words qantasPointsString with
               | [] => [EmptyString]
               | w :: ws => map (withoutChar ",") (w :: ws)
               end)
  /\ (commasInsideWords false false (trim qantasPointsString) = true ->
      split " " (removeAll "," (collapseWhiteSpace (trim qantasPointsString))) = points)
  /\ (forall t : string, t ∈ points ->
        forallChars (fun c => negb (isWhiteSpace c) && negb (bool_decide (c = ","%char))) t
        = true)
  /\ (forall (i : nat) (l : string),
        lastPosition fareClasses i l ->
        exists e : QantasEarnings.t,
          retval !! l = Some e
          /\ (safeInteger (orZero (parseIntOf (points !! i))) ->
              QantasEarnings.qantasPoints e = orZero (parseIntOf (points !! i)))
          /\ (safeInteger (orZero (parseIntOf (credits !! i))) ->
              QantasEarnings.statusCredits e = orZero (parseIntOf (credits !! i))))
  /\ parseEarningRates "1,000 500" "10 5" ["Y"; "J"]
     = {[ "Y" := QantasEarnings.new 1000 10; "J" := QantasEarnings.new 500 5 ]}.
Proof.
  intros points credits retval. repeat apply conj.
  - apply creditsTokens_match_words.
  - intros Hcommas. unfold points.
    rewrite (pointsTokens_map_credits _ Hcommas), creditsTokens_match_words.
    destruct (words qantasPointsString) as [|w ws]; [reflexivity|].
    apply map_ext. intros t. apply removeAll_withoutChar.
  - intros Hcommas. unfold points, pointsTokens, collapseWhiteSpace.
    by rewrite (collapse_removeAll_comma false false _ Hcommas).
  - intros t Ht. by apply (tokens_clean qantasPointsString t).
  - intros i l Hlast. eexists. split.
    + unfold retval, parseEarningRates. apply (fillRates_last _ _ _ 0%nat ∅ i l Hlast).
    + unfold rateAt. rewrite Nat.add_0_l. by split.
  - vm_compute. reflexivity.
Qed.

Lemma parseEarningRates_positional_witness :
  exists e : QantasEarnings.t,
    parseEarningRates "  1,000   500 " "10	5" ["Y"; "J"] !! "J" = Some e
    /\ (safeInteger (orZero (parseIntOf (pointsTokens "  1,000   500 " !! 1%nat))) ->
        QantasEarnings.qantasPoints e
        = orZero (parseIntOf (pointsTokens "  1,000   500 " !! 1%nat)))
    /\ (safeInteger (orZero (parseIntOf (creditsTokens "10	5" !! 1%nat))) ->
        QantasEarnings.statusCredits e
        = orZero (parseIntOf (creditsTokens "10	5" !! 1%nat))).
Proof.
  apply (proj1 (proj2 (proj2 (proj2 (proj2
           (parseEarningRates_positional "  1,000   500 " "10	5" ["Y"; "J"])))))
           1%nat "J").
  split; [reflexivity|]. intros [|[|[|j]]] Hj; (lia || discriminate).
Defined.

Example parseEarningRates_positional_tokens :
  pointsTokens "  1,000   500 " = ["1000"; "500"]
  /\ creditsTokens "10	5" = ["10"; "5"]
  /\ parseEarningRates "  1,000   500 " "10	5" ["Y"; "J"] !! "J"
     = Some (QantasEarnings.new 500 5).
Proof. repeat split; vm_compute; reflexivity. Qed.

(** ** White space around the strings *)

Lemma trimStart_blank (s : string) :
  forallChars isWhiteSpace s = true -> trimStart s = EmptyString.
Proof.
  induction s as [|c s IH]; simpl; [done|].
  intros [Hc Hs]%andb_true_iff. rewrite Hc. auto.
Qed.

Lemma trimEnd_blank (s : string) :
  forallChars isWhiteSpace s = true -> trimEnd s = EmptyString.
Proof.
  induction s as [|c s IH]; simpl; [done|].
  intros [Hc Hs]%andb_true_iff. by rewrite (IH Hs), Hc.
Qed.

Lemma trimStart_pad (l s : string) :
  forallChars isWhiteSpace l = true -> trimStart (l +:+ s) = trimStart s.
Proof.
  induction l as [|c l IH]; [done|]. simpl forallChars.
  intros [Hc Hl]%andb_true_iff.
  change (String c l +:+ s) with (String c (l +:+ s)). simpl. rewrite Hc. auto.
Qed.

Lemma trimEnd_pad (s r : string) :
  forallChars isWhiteSpace r = true -> trimEnd (s +:+ r) = trimEnd s.
Proof.
  intros Hr. induction s as [|c s IH].
  - change (EmptyString +:+ r) with r. by rewrite (trimEnd_blank r Hr).
  - change (String c s +:+ r) with (String c (s +:+ r)). simpl. by rewrite IH.
Qed.

Lemma trim_pad_end (s r : string) :
  forallChars isWhiteSpace r = true -> trim (s +:+ r) = trim s.
Proof.
  intros Hr. unfold trim. induction s as [|c s IH].
  - change (EmptyString +:+ r) with r. by rewrite (trimStart_blank r Hr).
  - change (String c s +:+ r) with (String c (s +:+ r)). simpl.
    destruct (isWhiteSpace c); [exact IH|].
    change (String c (s +:+ r)) with (String c s +:+ r). by apply trimEnd_pad.
Qed.

Lemma trim_pad (l s r : string) :
  forallChars isWhiteSpace l = true -> forallChars isWhiteSpace r = true ->
  trim (l +:+ s +:+ r) = trim s.
Proof.
  intros Hl Hr. unfold trim. rewrite (trimStart_pad l _ Hl).
  apply (trim_pad_end s r Hr).
Qed.

(** X13.  White space before and after the two strings does not count:
    padding either string with white space of any kind on both sides gives
    the same rates. *)
Theorem parseEarningRates_padding (qantasPointsString qantasCreditsString : string)
    (fareClasses : list string) (l r l' r' : string) :
  forallChars isWhiteSpace l = true -> forallChars isWhiteSpace r = true ->
  forallChars isWhiteSpace l' = true -> forallChars isWhiteSpace r' = true ->
  parseEarningRates (l +:+ qantasPointsString +:+ r) (l' +:+ qantasCreditsString +:+ r')
    fareClasses
  = parseEarningRates qantasPointsString qantasCreditsString fareClasses.
Proof.
  intros Hl Hr Hl' Hr'. unfold parseEarningRates, pointsTokens, creditsTokens.
  by rewrite (trim_pad l _ r Hl Hr), (trim_pad l' _ r' Hl' Hr').
Qed.

Lemma parseEarningRates_padding_witness :
  parseEarningRates ("  " +:+ "1,000 500" +:+ " ") ("	" +:+ "10 5" +:+ "") ["Y"; "J"]
  = parseEarningRates "1,000 500" "10 5" ["Y"; "J"].
Proof.
  apply (parseEarningRates_padding "1,000 500" "10 5" ["Y"; "J"] "  " " " "	" "");
    reflexivity.
Defined.

(** ** Numbers in the tokens *)

Lemma parseDigits_digits (ds : string) (acc : option Z) :
  allDecimalDigits ds = true ->
  parseDigits 10 acc ds
  = match ds with
    | EmptyString => acc
    | _ => Some (default 0 acc * 10 ^ Z.of_nat (String.length ds) + decimalValue ds)
    end.
Proof.
  intros Hds. revert acc.
  induction ds as [|c ds IH]; intros acc; [reflexivity|].
  cbn [allDecimalDigits] in Hds. apply andb_true_iff in Hds as [Hc Hds].
  destruct (digitValue_decimal c Hc) as [Hd Hrange].
  cbn [parseDigits]. rewrite Hd.
  rewrite (proj2 (Z.ltb_lt _ 10)) by lia.
  rewrite (IH Hds). cbn [String.length decimalValue].
  destruct ds as [|c' ds'].
  - f_equal. cbn. lia.
  - f_equal. cbn [default]. rewrite Nat2Z.inj_succ, Z.pow_succ_r by lia.
    unfold default, from_option, id. lia.
Qed.

Lemma hasHexPrefix_all_digits (ds : string) :
  allDecimalDigits ds = true -> hasHexPrefix ds = false.
Proof.
  destruct ds as [|c [|c' ds]]; try reflexivity. simpl.
  intros [_ [Hc' _]%andb_true_iff]%andb_true_iff.
  apply bool_decide_eq_false_2. intros [_ [-> | ->]]; discriminate.
Qed.

(** A token of decimal digits only is the number it denotes. *)
Lemma parseInt_digits (ds : string) :
  ds <> EmptyString -> allDecimalDigits ds = true -> parseInt ds = Some (decimalValue ds).
Proof.
  intros Hne Hds. destruct ds as [|c ds]; [done|]. unfold parseInt.
  pose proof Hds as Hall. cbn [allDecimalDigits] in Hds.
  apply andb_true_iff in Hds as [Hc Hds].
  assert (Htrim : trimStart (String c ds) = String c ds)
    by (simpl; by rewrite (decimalDigit_not_space c Hc)).
  rewrite Htrim. destruct (decimalDigit_not_sign c ds Hc) as [-> ->].
  rewrite (hasHexPrefix_all_digits _ Hall), (parseDigits_digits _ None Hall).
  f_equal. cbn [default]. lia.
Qed.

(** A sign in front of decimal digits is read: a minus sign negates. *)
Lemma parseInt_minus_digits (ds : string) :
  ds <> EmptyString -> allDecimalDigits ds = true ->
  parseInt (String "-" ds) = Some (- decimalValue ds).
Proof.
  intros Hne Hds.
  change (parseInt (String "-" ds))
    with (match parseDigits (if hasHexPrefix ds then 16 else 10) None
                  (if hasHexPrefix ds then dropChars 2 ds else ds) with
          | Some n => Some (-1 * n)
          | None => None
          end).
  rewrite (hasHexPrefix_all_digits _ Hds), (parseDigits_digits _ None Hds).
  destruct ds as [|c ds]; [done|]. f_equal; cbn [default]; lia.
Qed.

Lemma allDecimalDigits_app (a b : string) :
  allDecimalDigits (a +:+ b) = allDecimalDigits a && allDecimalDigits b.
Proof.
  induction a as [|c a IH]; [reflexivity|].
  change (String c a +:+ b) with (String c (a +:+ b)). simpl. by rewrite IH, andb_assoc.
Qed.

Lemma removeAll_app (c : ascii) (a b : string) :
  removeAll c (a +:+ b) = removeAll c a +:+ removeAll c b.
Proof.
  induction a as [|d a IH]; [reflexivity|].
  change (String d a +:+ b) with (String d (a +:+ b)). simpl.
  case_bool_decide; [exact IH|].
  change (String d (removeAll c a) +:+ removeAll c b)
    with (String d (removeAll c a +:+ removeAll c b)). by rewrite IH.
Qed.

Lemma removeAll_comma_digits (ds : string) :
  allDecimalDigits ds = true -> removeAll "," ds = ds.
Proof.
  induction ds as [|c ds IH]; [reflexivity|]. simpl.
  intros [Hc Hds]%andb_true_iff.
  rewrite bool_decide_eq_false_2 by (intros ->; discriminate). by rewrite IH.
Qed.

(** The token at the position of a word. *)
Lemma creditsTokens_word (s : string) (i : nat) (w : string) :
  words s !! i = Some w -> creditsTokens s !! i = Some w.
Proof.
  rewrite creditsTokens_match_words. by destruct (words s).
Qed.

Lemma pointsTokens_word (s : string) (i : nat) (w : string) :
  commasInsideWords false false (trim s) = true ->
  words s !! i = Some w -> pointsTokens s !! i = Some (removeAll "," w).
Proof.
  intros Hcommas Hw. rewrite (pointsTokens_map_credits s Hcommas).
  by rewrite list_lookup_fmap, (creditsTokens_word s i w Hw).
Qed.

(** X14.  A comma that separates thousands: for a word made of decimal
    digits, a comma and decimal digits again, the points string gives the
    number that all the digits denote together, and the credits string gives
    the number denoted by the digits before the comma.  Both are stated for
    numbers of at most 2^53, which are held exactly. *)
Theorem parseEarningRates_thousands (qantasPointsString qantasCreditsString : string)
    (fareClasses : list string) (i : nat) (l : string) (a b : string) :
  lastPosition fareClasses i l ->
  a <> EmptyString -> allDecimalDigits a = true -> allDecimalDigits b = true ->
  exists e : QantasEarnings.t,
    parseEarningRates qantasPointsString qantasCreditsString fareClasses !! l = Some e
    /\ (commasInsideWords false false (trim qantasPointsString) = true ->
        words qantasPointsString !! i = Some (a +:+ String "," b) ->
        safeInteger (decimalValue (a +:+ b)) ->
        QantasEarnings.qantasPoints e = decimalValue (a +:+ b))
    /\ (words qantasCreditsString !! i = Some (a +:+ String "," b) ->
        safeInteger (decimalValue a) ->
        QantasEarnings.statusCredits e = decimalValue a).
Proof.
  intros Hlast Hne Ha Hb. eexists. split.
  - unfold parseEarningRates. apply (fillRates_last _ _ _ 0%nat ∅ i l Hlast).
  - unfold rateAt. rewrite Nat.add_0_l.
    cbn [QantasEarnings.qantasPoints QantasEarnings.statusCredits]. unfold parseIntOf. split.
    + intros Hcommas Hw _. rewrite (pointsTokens_word _ i _ Hcommas Hw).
      change (default "undefined" (Some ?t)) with t.
      rewrite removeAll_app. cbn [removeAll].
      rewrite (bool_decide_eq_true_2 (","%char = ","%char) eq_refl).
      rewrite (removeAll_comma_digits a Ha), (removeAll_comma_digits b Hb).
      rewrite parseInt_digits; [reflexivity | by destruct a |].
      by rewrite allDecimalDigits_app, Ha, Hb.
    + intros Hw _. rewrite (creditsTokens_word _ i _ Hw).
      change (default "undefined" (Some ?t)) with t.
      rewrite (parseInt_decimal_prefix a "," b Hne Ha eq_refl).
      rewrite bool_decide_eq_false_2; [reflexivity|]. intros [_ [|]]; discriminate.
Qed.

Lemma parseEarningRates_thousands_witness :
  exists e : QantasEarnings.t,
    parseEarningRates "500 12,750" "5 12,750" ["Y"; "J"] !! "J" = Some e
    /\ (commasInsideWords false false (trim "500 12,750") = true ->
        words "500 12,750" !! 1%nat = Some ("12" +:+ String "," "750") ->
        safeInteger (decimalValue ("12" +:+ "750")) ->
        QantasEarnings.qantasPoints e = decimalValue ("12" +:+ "750"))
    /\ (words "5 12,750" !! 1%nat = Some ("12" +:+ String "," "750") ->
        safeInteger (decimalValue "12") ->
        QantasEarnings.statusCredits e = decimalValue "12").
Proof.
  apply (parseEarningRates_thousands "500 12,750" "5 12,750" ["Y"; "J"] 1%nat "J" "12" "750").
  - split; [reflexivity|]. intros [|[|[|j]]] Hj; (lia || discriminate).
  - discriminate.
  - reflexivity.
  - reflexivity.
Defined.

(** X15.  The parser reads a sign: a word made of a minus sign and decimal
    digits gives the negative of the number that the digits denote, in the
    credits and, when no comma touches white space, in the points; so a
    record can hold a negative count.  Stated for digits that denote at most
    2^53, which is held exactly. *)
Theorem parseEarningRates_negative (qantasPointsString qantasCreditsString : string)
    (fareClasses : list string) (i : nat) (l : string) (ds : string) :
  lastPosition fareClasses i l ->
  ds <> EmptyString -> allDecimalDigits ds = true ->
  safeInteger (decimalValue ds) ->
  exists e : QantasEarnings.t,
    parseEarningRates qantasPointsString qantasCreditsString fareClasses !! l = Some e
    /\ (commasInsideWords false false (trim qantasPointsString) = true ->
        words qantasPointsString !! i = Some (String "-" ds) ->
        QantasEarnings.qantasPoints e = - decimalValue ds)
    /\ (words qantasCreditsString !! i = Some (String "-" ds) ->
        QantasEarnings.statusCredits e = - decimalValue ds).
Proof.
  intros Hlast Hne Hds _. eexists. split.
  - unfold parseEarningRates. apply (fillRates_last _ _ _ 0%nat ∅ i l Hlast).
  - unfold rateAt. rewrite Nat.add_0_l.
    cbn [QantasEarnings.qantasPoints QantasEarnings.statusCredits]. unfold parseIntOf. split.
    + intros Hcommas Hw. rewrite (pointsTokens_word _ i _ Hcommas Hw).
      change (default "undefined" (Some ?t)) with t.
      cbn [removeAll]. rewrite bool_decide_eq_false_2 by discriminate.
      rewrite (removeAll_comma_digits ds Hds).
      by rewrite (parseInt_minus_digits ds Hne Hds).
    + intros Hw. rewrite (creditsTokens_word _ i _ Hw).
      change (default "undefined" (Some ?t)) with t.
      by rewrite (parseInt_minus_digits ds Hne Hds).
Qed.

Lemma parseEarningRates_negative_witness :
  exists e : QantasEarnings.t,
    parseEarningRates "-250" "-250" ["Y"] !! "Y" = Some e
    /\ (commasInsideWords false false (trim "-250") = true ->
        words "-250" !! 0%nat = Some (String "-" "250") ->
        QantasEarnings.qantasPoints e = - decimalValue "250")
    /\ (words "-250" !! 0%nat = Some (String "-" "250") ->
        QantasEarnings.statusCredits e = - decimalValue "250").
Proof.
  apply (parseEarningRates_negative "-250" "-250" ["Y"] 0%nat "Y" "250").
  - split; [reflexivity|]. intros [|[|j]] Hj; (lia || discriminate).
  - discriminate.
  - reflexivity.
  - unfold safeInteger. vm_compute. discriminate.
Defined.

(** ** Labels *)

Lemma fillRates_app (labels more points credits : list string) (index : nat)
    (retval : Earnings) :
  fillRates index (labels ++ more) points credits retval
  = fillRates (index + length labels) more points credits
      (fillRates index labels points credits retval).
Proof.
  revert index retval. induction labels as [|a labels IH]; intros index retval; simpl.
  - by rewrite Nat.add_0_r.
  - rewrite IH. f_equal. lia.
Qed.

(** X16.  For labels that are all different and none of which is
    [__proto__] (an assignment to that name sets the prototype of the result
    and adds no entry), every label has a record with the numbers at its own
    position, each stated for a number of at most 2^53, and the result has as
    many records as there are labels. *)
Theorem parseEarningRates_distinct_labels (qantasPointsString qantasCreditsString : string)
    (fareClasses : list string) :
  NoDup fareClasses ->
  "__proto__" ∉ fareClasses ->
  (forall (i : nat) (l : string),
      fareClasses !! i = Some l ->
      exists e : QantasEarnings.t,
        parseEarningRates qantasPointsString qantasCreditsString fareClasses !! l = Some e
        /\ (safeInteger (orZero (parseIntOf (pointsTokens qantasPointsString !! i))) ->
            QantasEarnings.qantasPoints e
            = orZero (parseIntOf (pointsTokens qantasPointsString !! i)))
        /\ (safeInteger (orZero (parseIntOf (creditsTokens qantasCreditsString !! i))) ->
            QantasEarnings.statusCredits e
            = orZero (parseIntOf (creditsTokens qantasCreditsString !! i))))
  /\ size (parseEarningRates qantasPointsString qantasCreditsString fareClasses)
     = length fareClasses.
Proof.
  intros Hnodup _. split.
  - intros i l Hi. eexists. split.
    + unfold parseEarningRates.
      rewrite (fillRates_last _ _ _ 0%nat ∅ i l); [reflexivity|].
      split; [exact Hi|]. intros j Hj Hl.
      pose proof (NoDup_lookup _ _ _ _ Hnodup Hi Hl). lia.
    + unfold rateAt. rewrite Nat.add_0_l. split; intros _; reflexivity.
  - rewrite <- size_dom. unfold parseEarningRates.
    rewrite fillRates_dom, dom_empty_L, (right_id_L ∅ (∪)).
    by apply size_list_to_set.
Qed.

Lemma parseEarningRates_distinct_labels_witness :
  (forall (i : nat) (l : string),
      ["Y"; "J"] !! i = Some l ->
      exists e : QantasEarnings.t,
        parseEarningRates "1,000 500" "10 5" ["Y"; "J"] !! l = Some e
        /\ (safeInteger (orZero (parseIntOf (pointsTokens "1,000 500" !! i))) ->
            QantasEarnings.qantasPoints e
            = orZero (parseIntOf (pointsTokens "1,000 500" !! i)))
        /\ (safeInteger (orZero (parseIntOf (creditsTokens "10 5" !! i))) ->
            QantasEarnings.statusCredits e
            = orZero (parseIntOf (creditsTokens "10 5" !! i))))
  /\ size (parseEarningRates "1,000 500" "10 5" ["Y"; "J"]) = length ["Y"; "J"].
Proof.
  apply (parseEarningRates_distinct_labels "1,000 500" "10 5" ["Y"; "J"]).
  - apply NoDup_cons. split.
    + intros H. apply list_elem_of_singleton in H. discriminate.
    + apply NoDup_singleton.
  - intros H. apply elem_of_cons in H as [H|H]; [discriminate|].
    apply list_elem_of_singleton in H. discriminate.
Defined.

(** X17.  Labels added at the end leave the records of the other labels as
    they are: a label that is not among the added ones has the same record,
    or none, with and without them. *)
Theorem parseEarningRates_more_labels (qantasPointsString qantasCreditsString : string)
    (fareClasses more : list string) (l : string) :
  l ∉ more ->
  parseEarningRates qantasPointsString qantasCreditsString (fareClasses ++ more) !! l
  = parseEarningRates qantasPointsString qantasCreditsString fareClasses !! l.
Proof.
  intros Hl. unfold parseEarningRates. rewrite fillRates_app.
  by apply fillRates_absent.
Qed.

Lemma parseEarningRates_more_labels_witness :
  parseEarningRates "1,000 500 250" "10 5 2" (["Y"; "J"] ++ ["F"]) !! "Y"
  = parseEarningRates "1,000 500 250" "10 5 2" ["Y"; "J"] !! "Y".
Proof.
  apply (parseEarningRates_more_labels "1,000 500 250" "10 5 2" ["Y"; "J"] ["F"] "Y").
  intros H. apply list_elem_of_singleton in H. discriminate.
Defined.

(** ** What [GeographicalRule.calculate] throws *)

(** X18.  The locations that a geographical rule resolves are cities,
    countries and regions only, so [calculate] never renders an airport and
    never throws the error for an unknown type: it returns a result, or it
    throws a [TypeError] by reading a missing value. *)
Theorem geographical_calculate_outcome `{imports : Imports} (this : GeographicalRule.t)
    (segment : Segment.t) (fareEarnCategory : string) :
  (forall (o d : option Location.t) (l : Location.t),
      GeographicalRule._getOriginAndDestination this segment = (o, d) ->
      o = Some l \/ d = Some l ->
      Location.type l = "city" \/ Location.type l = "country" \/ Location.type l = "region")
  /\ ((exists r : CalculationResult.t,
          GeographicalRule.calculate this segment fareEarnCategory = Ok r)
      \/ GeographicalRule.calculate this segment fareEarnCategory = Throw TypeError).
Proof.
  assert (Htypes : forall (o d : option Location.t) (l : Location.t),
      GeographicalRule._getOriginAndDestination this segment = (o, d) ->
      o = Some l \/ d = Some l ->
      Location.type l = "city" \/ Location.type l = "country" \/ Location.type l = "region").
  { intros o d l. rewrite getOriginAndDestination_cases. intros Hpair Hl.
    assert (exists a, matches a l) as [a Ha].
    { destruct (resolves _ _ _); injection Hpair as Ho Hd; destruct Hl as [-> | ->].
      - apply getOrigin_matches in Ho. eauto.
      - apply getDestination_sound in Hd as [Hd _]. eauto.
      - apply getOrigin_matches in Ho. eauto.
      - apply getDestination_sound in Hd as [Hd _]. eauto. }
    unfold matches in Ha. tauto. }
  split; [exact Htypes|].
  pose proof (geographical_applies_value this segment fareEarnCategory) as Hv.
  unfold GeographicalRule.calculate.
  destruct (GeographicalRule._getOriginAndDestination this segment) as [[o|] [d|]] eqn:Hpair.
  - destruct Hv as (e & He & Happ).
    destruct (resolved_pair_renders this segment o d Hpair) as (ro & rd & Hro & Hrd).
    rewrite He. simpl. unfold GeographicalRule._buildCalculationNotes.
    rewrite Hro, Hrd. simpl.
    destruct (e !! fareEarnCategory) as [q|]; simpl; [left; eauto | by right].
  - by right.
  - destruct (GeographicalRule.destinationEarnings this (Some d)) as [earnings|[msg|]] eqn:He;
      simpl; [by right | | by right].
    unfold GeographicalRule.destinationEarnings in He. simpl in He.
    destruct (Destination.get _ _) as [table|]; discriminate.
  - by right.
Qed.

Lemma geographical_calculate_outcome_witness :
  Location.type (Location.mk "country" "au") = "city"
  \/ Location.type (Location.mk "country" "au") = "country"
  \/ Location.type (Location.mk "country" "au") = "region".
Proof.
  apply (proj1 (geographical_calculate_outcome (imports := Sample.imports) GeoSample.oneWay
                  (Segment.mk Sample.SYD Sample.LAX) "economy")
           (Some (Location.mk "country" "au")) (Some (Location.mk "region" "northamerica"))
           (Location.mk "country" "au")).
  - vm_compute. reflexivity.
  - by left.
Defined.
